(** * The OpenQuake engine: configuration resolution, parameter preparation,
      site selection and the worker's status writes

    A shallow embedding of [openquake/engine.py].  Python dictionaries are
    [gmap]s keyed by strings, [list(set(...))] is the element list of a
    [gset], exceptions are values of a result type, and the recursion of
    [_parse_config_file] over include files is bounded by a fuel argument
    (the source has no cycle detection). *)

From Stdlib Require Import String Ascii List ZArith Lia.
From stdpp Require Import base option list gmap strings fin_maps sets.

Local Open Scope string_scope.
Local Open Scope list_scope.

(** ** Python results and exceptions *)

Module Py.

(** The exception classes the engine raises or lets through.  The last
    three derive from [BaseException] only, so [except Exception] does not
    catch them. *)
Inductive ExcClass :=
| ValidationException
| KeyError
| TypeError
| ValueError
| RuntimeError
| OtherException (name : string)
| KeyboardInterrupt
| SystemExit
| GeneratorExit.

Record Exc := mkExc { exc_class : ExcClass; exc_args : list string }.

(** [isinstance(ex, Exception)] *)
Definition isinstance_Exception (ex : Exc) : bool :=
  match exc_class ex with
  | KeyboardInterrupt | SystemExit | GeneratorExit => false
  | _ => true
  end.

(** Outcome of running a piece of Python: a value, a raised exception, or
    no outcome within the recursion budget. *)
Inductive Res (A : Type) :=
| Ok (a : A)
| Raise (ex : Exc)
| Diverges.
Arguments Ok {A} a.
Arguments Raise {A} ex.
Arguments Diverges {A}.

Definition bind {A B} (m : Res A) (k : A -> Res B) : Res B :=
  match m with
  | Ok a => k a
  | Raise ex => Raise ex
  | Diverges => Diverges
  end.

(** [for x in xs: acc = body(acc, x)], stopping at the first exception. *)
Fixpoint for_each {A S} (body : S -> A -> Res S) (acc : S) (xs : list A)
  : Res S :=
  match xs with
  | [] => Ok acc
  | x :: xs' => bind (body acc x) (fun acc' => for_each body acc' xs')
  end.

(** [d[k]] on a dictionary of strings. *)
Definition getitem {V} (d : gmap string V) (k : string) : Res V :=
  match d !! k with
  | Some v => Ok v
  | None => Raise (mkExc KeyError [k])
  end.

(** [str.upper] on ASCII text. *)
Definition upper_ascii (c : ascii) : ascii :=
  let n := nat_of_ascii c in
  if (97 <=? n)%nat && (n <=? 122)%nat then ascii_of_nat (n - 32) else c.

Fixpoint upper (s : string) : string :=
  match s with
  | EmptyString => EmptyString
  | String c r => String (upper_ascii c) (upper r)
  end.

End Py.
Export Py.

#[global] Instance Res_bind : MBind Res := fun _ _ k m => Py.bind m k.
#[global] Instance Res_ret : MRet Res := fun _ a => Ok a.
#[global] Instance Res_fmap : FMap Res :=
  fun _ _ f m => Py.bind m (fun a => Ok (f a)).

(** ** [os.path] on POSIX *)

Module posixpath.

Definition is_slash (c : ascii) : bool := Ascii.eqb c "/"%char.

Definition isabs (p : string) : bool :=
  match p with
  | String c _ => is_slash c
  | EmptyString => false
  end.

Fixpoint endswith_slash (p : string) : bool :=
  match p with
  | EmptyString => false
  | String c EmptyString => is_slash c
  | String _ r => endswith_slash r
  end.

(** [join(a, b)]: an absolute [b] discards [a]. *)
Definition join (a b : string) : string :=
  if isabs b then b
  else if String.eqb a "" || endswith_slash a then a +:+ b
  else a +:+ "/" +:+ b.

Fixpoint has_slash (p : string) : bool :=
  match p with
  | EmptyString => false
  | String c r => is_slash c || has_slash r
  end.

(** [p[:p.rfind('/') + 1]] *)
Fixpoint head_to_last_slash (p : string) : string :=
  match p with
  | EmptyString => EmptyString
  | String c r => if has_slash p then String c (head_to_last_slash r)
                  else EmptyString
  end.

Fixpoint all_slashes (p : string) : bool :=
  match p with
  | EmptyString => true
  | String c r => is_slash c && all_slashes r
  end.

(** [p.rstrip('/')] *)
Fixpoint rstrip_slash (p : string) : string :=
  match p with
  | EmptyString => EmptyString
  | String c r =>
      let r' := rstrip_slash r in
      if is_slash c && String.eqb r' "" then EmptyString else String c r'
  end.

Definition dirname (p : string) : string :=
  let head := head_to_last_slash p in
  if negb (String.eqb head "") && negb (all_slashes head)
  then rstrip_slash head else head.

(** [p.split('/')] *)
Fixpoint split_slash (p : string) : list string :=
  match p with
  | EmptyString => [EmptyString]
  | String c r =>
      if is_slash c then EmptyString :: split_slash r
      else match split_slash r with
           | comp :: comps => String c comp :: comps
           | [] => [String c EmptyString]
           end
  end.

Fixpoint join_slash (comps : list string) : string :=
  match comps with
  | [] => EmptyString
  | [c] => c
  | c :: cs => c +:+ "/" +:+ join_slash cs
  end.

(** One round of the component loop of [normpath]; [new_comps] is kept
    reversed, its head being [new_comps[-1]]. *)
Definition norm_step (initial_slashes : nat) (new_comps : list string)
    (comp : string) : list string :=
  if String.eqb comp "" || String.eqb comp "." then new_comps
  else if negb (String.eqb comp "..")
          || (Nat.eqb initial_slashes 0 && bool_decide (new_comps = []))
          || match new_comps with
             | last :: _ => String.eqb last ".."
             | [] => false
             end
       then comp :: new_comps
       else match new_comps with
            | _ :: popped => popped
            | [] => new_comps
            end.

Definition normpath (path : string) : string :=
  if String.eqb path "" then "."
  else
    let initial_slashes :=
      if negb (isabs path) then 0
      else if String.prefix "//" path && negb (String.prefix "///" path)
           then 2 else 1 in
    let comps := rev (fold_left (norm_step initial_slashes)
                                (split_slash path) []) in
    let path' := match initial_slashes with
                 | 0 => join_slash comps
                 | 1 => "/" +:+ join_slash comps
                 | _ => "//" +:+ join_slash comps
                 end in
    if String.eqb path' "" then "." else path'.

(** [abspath(path)], with the process's working directory [cwd]. *)
Definition abspath (cwd path : string) : string :=
  normpath (if isabs path then path else join cwd path).

End posixpath.

(** ** The file system and [ConfigParser] *)

(** What [ConfigParser.read] finds in a file: its sections in file order,
    each with the [(key, value)] list [parser.items(section)] returns. *)
Definition ParsedConfig := list (string * list (string * string)).

Inductive Node :=
| Directory
| ConfigFile (content : ParsedConfig).

Record OS := mkOS {
  getcwd : string;
  files : gmap string Node  (* keyed by normalised absolute path *)
}.

(** [os.path.exists] *)
Definition path_exists (os : OS) (path : string) : bool :=
  bool_decide (is_Some (files os !! path)).

(** [parser.read(path)]: files that cannot be opened are skipped silently. *)
Definition parser_read (os : OS) (path : string) : ParsedConfig :=
  match files os !! path with
  | Some (ConfigFile content) => content
  | _ => []
  end.

(** [parser.sections()] *)
Definition parser_sections (parser : ParsedConfig) : list string :=
  fst <$> parser.

(** ** [_parse_config_file] *)

(** [RE_INCLUDE.match(key)], where [RE_INCLUDE] is the compiled pattern
    "any run of characters other than newline, then _INCLUDE", anchored at
    the start only: some suffix of [key] starts with [_INCLUDE] and no
    newline precedes it. *)
Fixpoint RE_INCLUDE_match (key : string) : bool :=
  if String.prefix "_INCLUDE" key then true
  else match key with
       | EmptyString => false
       | String c r =>
           if Ascii.eqb c "010"%char then false else RE_INCLUDE_match r
       end.

Definition not_found_message (config_file : string) : string :=
  "File '" +:+ config_file +:+ "' not found".

(** The variables the two nested loops of [_parse_config_file] assign:
    [config_file] (re-bound by every include), [params] and [sections]. *)
Record ParseLocals := mkLocals {
  l_config_file : string;
  l_params : gmap string string;
  l_sections : list string
}.

Section ParseLoops.
(** The recursive call, one level down. *)
Variable recurse : string -> Res (gmap string string * list string).

(** Body of [for key, value in parser.items(section)]. *)
Definition parse_item (section : string) (st : ParseLocals)
    (item : string * string) : Res ParseLocals :=
  let key := upper item.1 in
  let value := item.2 in
  if RE_INCLUDE_match key then
    let config_file :=
      posixpath.join (posixpath.dirname (l_config_file st)) value in
    '(new_params, new_sections) ← recurse config_file;
    Ok (mkLocals config_file
                 (new_params ∪ l_params st)
                 (l_sections st ++ new_sections))
  else
    Ok (mkLocals (l_config_file st)
                 (<[key := value]> (l_params st))
                 (l_sections st ++ [section])).

(** Body of [for section in parser.sections()]. *)
Definition parse_section (st : ParseLocals)
    (sec : string * list (string * string)) : Res ParseLocals :=
  for_each (parse_item sec.1) st sec.2.
End ParseLoops.

Fixpoint _parse_config_file (fuel : nat) (os : OS) (config_file : string)
  : Res (gmap string string * list string) :=
  match fuel with
  | O => Diverges
  | S fuel' =>
      let config_file := posixpath.abspath (getcwd os) config_file in
      let base_path :=
        posixpath.abspath (getcwd os) (posixpath.dirname config_file) in
      if negb (path_exists os config_file) then
        Raise (mkExc ValidationException [not_found_message config_file])
      else
        let parser := parser_read os config_file in
        st ← for_each (parse_section (_parse_config_file fuel' os))
                      (mkLocals config_file ∅ []) parser;
        let params := <["BASE_PATH" := base_path]> (l_params st) in
        Ok (params, elements (list_to_set (l_sections st) : gset string))
  end.

(** ** The include traversal, file by file *)

(** A parameter line of a configuration file: its section, its upper-cased
    key and its value. *)
Definition Entry : Type := string * string * string.

Definition entry_section (e : Entry) : string := e.1.1.
Definition entry_key (e : Entry) : string := e.1.2.
Definition entry_value (e : Entry) : string := e.2.

(** What a traversal collects: the files opened, in the order they are
    opened, and the parameter lines met, an included file's lines standing
    where its include directive stands. *)
Record Visit := mkVisit {
  v_config_file : string;
  v_files : list string;
  v_entries : list Entry
}.

Section VisitLoops.
Variable recurse : string -> Res (list string * list Entry).

Definition visit_item (section : string) (st : Visit)
    (item : string * string) : Res Visit :=
  let key := upper item.1 in
  if RE_INCLUDE_match key then
    let config_file :=
      posixpath.join (posixpath.dirname (v_config_file st)) item.2 in
    '(files, entries) ← recurse config_file;
    Ok (mkVisit config_file (v_files st ++ files) (v_entries st ++ entries))
  else
    Ok (mkVisit (v_config_file st) (v_files st)
                (v_entries st ++ [(section, key, item.2)])).

Definition visit_section (st : Visit)
    (sec : string * list (string * string)) : Res Visit :=
  for_each (visit_item sec.1) st sec.2.
End VisitLoops.

(** The files [_parse_config_file] opens from [config_file] on, and their
    parameter lines. *)
Fixpoint visit (fuel : nat) (os : OS) (config_file : string)
  : Res (list string * list Entry) :=
  match fuel with
  | O => Diverges
  | S fuel' =>
      let config_file := posixpath.abspath (getcwd os) config_file in
      if negb (path_exists os config_file) then
        Raise (mkExc ValidationException [not_found_message config_file])
      else
        st ← for_each (visit_section (visit fuel' os))
                      (mkVisit config_file [config_file] [])
                      (parser_read os config_file);
        Ok (v_files st, v_entries st)
  end.

(** Last write wins. *)
Definition merge_entries (entries : list Entry) : gmap string string :=
  foldl (fun m e => <[entry_key e := entry_value e]> m) ∅ entries.

Definition sections_of_entries (entries : list Entry) : gset string :=
  list_to_set (entry_section <$> entries).

(** The directory [BASE_PATH] is set to. *)
Definition base_path_of (os : OS) (config_file : string) : string :=
  posixpath.abspath (getcwd os)
    (posixpath.dirname (posixpath.abspath (getcwd os) config_file)).

(** Merging whole files: every key/value pair of every visited file, file
    after file in the order of inclusion, last write wins. *)
Definition merge_file (os : OS) (m : gmap string string) (file : string)
  : gmap string string :=
  foldl (fun m item => <[upper item.1 := item.2]> m) m
        (mjoin (snd <$> parser_read os file)).

Definition merge_files (os : OS) (files : list string) : gmap string string :=
  foldl (merge_file os) ∅ files.

(** The union of the sections of the given files. *)
Definition union_of_sections (os : OS) (files : list string) : gset string :=
  ⋃ ((fun file => list_to_set (parser_sections (parser_read os file)))
       <$> files).

(** The parser's locals and the traversal's agree: same current file, same
    parameters up to [BASE_PATH] (an included file leaves its own there
    until the root overwrites it), same sections as a set. *)
Definition locals_agree (pst : ParseLocals) (vst : Visit) : Prop :=
  l_config_file pst = v_config_file vst
  ∧ delete "BASE_PATH" (l_params pst)
    = delete "BASE_PATH" (merge_entries (v_entries vst))
  ∧ list_to_set (l_sections pst) = sections_of_entries (v_entries vst).

(** ** The parameter catalog ([openquake.job.params]) *)

(** Values a parameter takes once its [to_job] transform has run.  [F] is
    the type of Python floats. *)
Inductive JobVal (F : Type) :=
| VNone
| VStr (s : string)
| VFloat (x : F)
| VFloats (xs : list F).
Arguments VNone {F}.
Arguments VStr {F} s.
Arguments VFloat {F} x.
Arguments VFloats {F} xs.

(** A catalog entry: the calculation modes the parameter is meaningful in
    and its optional string-to-value transform.  (The column, type, default
    and [to_db] attributes play no part in what follows.) *)
Record Param (F : Type) := mkParam {
  modes : list string;
  to_job : option (string -> Res (JobVal F))
}.
Arguments mkParam {F} modes to_job.
Arguments modes {F} p.
Arguments to_job {F} p.

(** The tables [engine.py] imports from [openquake.job.params]. *)
Record Catalog (F : Type) := mkCatalog {
  CALCULATION_MODE : gmap string string;
  PARAMS : gmap string (Param F);
  PATH_PARAMS : list string
}.
Arguments mkCatalog {F} CALCULATION_MODE PARAMS PATH_PARAMS.
Arguments CALCULATION_MODE {F} c.
Arguments PARAMS {F} c.
Arguments PATH_PARAMS {F} c.

(** Truth value of [d.get(k)] for a dictionary of strings. *)
Definition get_truthy (d : gmap string string) (k : string) : bool :=
  match d !! k with
  | Some v => negb (String.eqb v "")
  | None => false
  end.

(** ** [_prepare_config_parameters] *)

(** What the function prints, one constructor per [print] statement. *)
Inductive Diagnostic :=
| IgnoringUnknownParameter (name : string)
| IgnoringOutsideMode (name calc_mode : string) (valid_modes : list string)
| IgnoringComputeMeanHazardCurve.

Section Prepare.
Context {F : Type}.
Variable catalog : Catalog F.

(** Does the parameter survive the first loop? *)
Definition known_in_mode (calc_mode name : string) : bool :=
  match PARAMS catalog !! name with
  | Some param => bool_decide (calc_mode ∈ modes param)
  | None => false
  end.

(** Body of [for name, value in params.items()]. *)
Definition filter_step (calc_mode : string)
    (acc : gmap string string * list Diagnostic) (item : string * string)
  : gmap string string * list Diagnostic :=
  let '(name, value) := item in
  match PARAMS catalog !! name with
  | None => (acc.1, acc.2 ++ [IgnoringUnknownParameter name])
  | Some param =>
      if bool_decide (calc_mode ∈ modes param)
      then (<[name := value]> acc.1, acc.2)
      else (acc.1, acc.2 ++ [IgnoringOutsideMode name calc_mode (modes param)])
  end.

(** Body of [for name in PATH_PARAMS]. *)
Definition path_step (params new_params : gmap string string)
    (name : string) : Res (gmap string string) :=
  match new_params !! name with
  | None => Ok new_params
  | Some value =>
      base_path ← getitem params "BASE_PATH";
      Ok (<[name := posixpath.join base_path value]> new_params)
  end.

Definition classical_hazard_and_risk (calc_mode : string)
    (sections : list string) : bool :=
  bool_decide (calc_mode = "classical")
  && bool_decide ("HAZARD" ∈ sections) && bool_decide ("RISK" ∈ sections).

(** Returns the outcome together with the printed diagnostics. *)
Definition _prepare_config_parameters (params : gmap string string)
    (sections : list string)
  : Res (gmap string string * list string) * list Diagnostic :=
  match mode_name ← getitem params "CALCULATION_MODE";
        getitem (CALCULATION_MODE catalog) mode_name with
  | Raise ex => (Raise ex, [])
  | Diverges => (Diverges, [])
  | Ok calc_mode =>
      let filtered :=
        foldl (filter_step calc_mode) (∅, []) (map_to_list params) in
      match for_each (path_step params) filtered.1 (PATH_PARAMS catalog) with
      | Raise ex => (Raise ex, filtered.2)
      | Diverges => (Diverges, filtered.2)
      | Ok new_params =>
          if classical_hazard_and_risk calc_mode sections then
            (Ok (<["COMPUTE_MEAN_HAZARD_CURVE" := "true"]> new_params,
                 sections),
             filtered.2 ++
               (if get_truthy params "COMPUTE_MEAN_HAZARD_CURVE"
                then [IgnoringComputeMeanHazardCurve] else []))
          else (Ok (new_params, sections), filtered.2)
      end
  end.

(** The calculation mode the function works with, when it finds one. *)
Definition active_mode (params : gmap string string) : option string :=
  mode_name ← params !! "CALCULATION_MODE";
  CALCULATION_MODE catalog !! mode_name.
End Prepare.

(** ** Database records *)

Record OqJobProfile := mkJobProfile {
  profile_id : Z;
  profile_owner : string;
  calc_mode : string
}.

(** A row of the calculation table.  [calc_id] is [None] until the first
    [save()]. *)
Record OqCalculation := mkCalculation {
  calc_id : option Z;
  owner : string;
  oq_job_profile : option OqJobProfile;
  status : string;
  supervisor_pid : option Z;
  job_pid : option Z
}.

Definition set_status (s : string) (c : OqCalculation) : OqCalculation :=
  mkCalculation (calc_id c) (owner c) (oq_job_profile c) s
                (supervisor_pid c) (job_pid c).

Definition set_pids (sup job : Z) (c : OqCalculation) : OqCalculation :=
  mkCalculation (calc_id c) (owner c) (oq_job_profile c) (status c)
                (Some sup) (Some job).

(** ** [shapes] and [CalculationProxy] *)

(** [shapes.Site(longitude, latitude)] *)
Record Site (F : Type) := mkSite {
  longitude : JobVal F;
  latitude : JobVal F
}.
Arguments mkSite {F} longitude latitude.
Arguments longitude {F} s.
Arguments latitude {F} s.

(** What the engine uses of [openquake.shapes], of the exposure parser and
    of the built-in [float]. *)
Record Shapes (F : Type) := mkShapes {
  Region : Type;
  Region_from_coordinates : list (JobVal F * JobVal F) -> Res Region;
  RegionConstraint_from_coordinates :
    list (JobVal F * JobVal F) -> Res Region;
  with_cell_size : Region -> JobVal F -> Region;
  (* [[site for site in region]] *)
  Region_sites : Region -> Res (list (Site F));
  (* [site in sites] *)
  Site_eq : Site F -> Site F -> bool;
  (* [ExposurePortfolioFile(path).filter(constraint)], sites only *)
  exposure_filter : string -> option Region -> Res (list (Site F));
  py_float : JobVal F -> Res F
}.
Arguments Region {F} s.
Arguments Region_from_coordinates {F} s coords.
Arguments RegionConstraint_from_coordinates {F} s coords.
Arguments with_cell_size {F} s r v.
Arguments Region_sites {F} s r.
Arguments Site_eq {F} s a b.
Arguments exposure_filter {F} s path constraint.
Arguments py_float {F} s v.

Record CalculationProxy (F : Type) := mkProxy {
  _calculation_id : Z;
  sites : list (Site F);
  blocks_keys : list string;
  params : gmap string string;
  sections : list string;
  serialize_results_to : list string;
  _base_path : option string;
  proxy_job_profile : option OqJobProfile;
  proxy_calculation : option OqCalculation
}.
Arguments mkProxy {F}.
Arguments _calculation_id {F} c.
Arguments sites {F} c.
Arguments blocks_keys {F} c.
Arguments params {F} c.
Arguments sections {F} c.
Arguments serialize_results_to {F} c.
Arguments _base_path {F} c.
Arguments proxy_job_profile {F} c.
Arguments proxy_calculation {F} c.

(** Names from [openquake.job.config]. *)
Module jobconf.
Definition RISK_SECTION := "RISK".
Definition HAZARD_SECTION := "HAZARD".
Definition COMPUTE_HAZARD_AT_ASSETS := "COMPUTE_HAZARD_AT_ASSETS_LOCATIONS".
Definition SITES := "SITES".
Definition EXPOSURE := "EXPOSURE".
End jobconf.

(** What [has] returns: [False], or the parameter's string. *)
Inductive HasResult :=
| HasFalse
| HasString (value : string).

(** Python truth value of such a result. *)
Definition truthy (r : HasResult) : bool :=
  match r with
  | HasFalse => false
  | HasString value => negb (String.eqb value "")
  end.

(** [xs[::2]] and [xs[1::2]] *)
Fixpoint slice_even {A} (xs : list A) : list A :=
  match xs with
  | [] => []
  | x :: rest => x :: match rest with
                      | [] => []
                      | _ :: rest' => slice_even rest'
                      end
  end.

Definition slice_odd {A} (xs : list A) : list A := slice_even (tail xs).

(** The one-character strings of a string. *)
Fixpoint characters (s : string) : list string :=
  match s with
  | EmptyString => []
  | String c r => String c EmptyString :: characters r
  end.

Section Proxy.
Context {F : Type}.
Variable catalog : Catalog F.
Variable shapes : Shapes F.

(** [CalculationProxy.__init__] (the KVS garbage-collection marker it
    sets is not tracked). *)
Definition CalculationProxy_init (params : gmap string string)
    (calculation_id : Z) (sections : list string)
    (base_path : option string) (serialize_results_to : list string)
    (job_profile : option OqJobProfile)
    (calculation : option OqCalculation) : CalculationProxy F :=
  mkProxy calculation_id [] [] params
          (elements (list_to_set sections : gset string))
          serialize_results_to base_path job_profile calculation.

Definition set_sites (s : list (Site F)) (p : CalculationProxy F)
  : CalculationProxy F :=
  mkProxy (_calculation_id p) s (blocks_keys p) (params p) (sections p)
          (serialize_results_to p) (_base_path p) (proxy_job_profile p)
          (proxy_calculation p).

Definition base_path (p : CalculationProxy F) : option string :=
  match _base_path p with
  | Some b => Some b
  | None => params p !! "BASE_PATH"
  end.

Definition has (p : CalculationProxy F) (name : string) : HasResult :=
  match params p !! name with
  | Some value => HasString value
  | None => HasFalse
  end.

(** [__getitem__] *)
Definition proxy_getitem (p : CalculationProxy F) (name : string)
  : Res (JobVal F) :=
  match PARAMS catalog !! name ≫= to_job, params p !! name with
  | Some transform, Some value => transform value
  | _, Some value => Ok (VStr value)
  | _, None => Ok VNone
  end.

Definition _extract_coords (p : CalculationProxy F) (config_param : string)
  : Res (list (JobVal F * JobVal F)) :=
  verts ← proxy_getitem p config_param;
  match verts with
  | VFloats xs => Ok (zip (VFloat <$> slice_odd xs) (VFloat <$> slice_even xs))
  | VStr s =>
      let cs := characters s in
      Ok (zip (VStr <$> slice_odd cs) (VStr <$> slice_even cs))
  | VNone | VFloat _ => Raise (mkExc TypeError ["not subscriptable"])
  end.

(** The [region] property. *)
Definition region (p : CalculationProxy F) : Res (option (Region shapes)) :=
  if negb (truthy (has p "REGION_VERTEX")) then Ok None
  else
    coords ← _extract_coords p "REGION_VERTEX";
    r ← RegionConstraint_from_coordinates shapes coords;
    spacing ← proxy_getitem p "REGION_GRID_SPACING";
    cell ← py_float shapes spacing;
    Ok (Some (with_cell_size shapes r (VFloat cell))).

Definition _sites_for_region (p : CalculationProxy F)
  : Res (list (Site F)) :=
  coords ← _extract_coords p "REGION_VERTEX";
  r ← Region_from_coordinates shapes coords;
  spacing ← proxy_getitem p "REGION_GRID_SPACING";
  Region_sites shapes (with_cell_size shapes r spacing).

(** [os.path.join(base, value)] where [base] may be [None]. *)
Definition join_base (base : option string) (value : string) : Res string :=
  match base with
  | Some b => Ok (posixpath.join b value)
  | None => if posixpath.isabs value then Ok value
            else Raise (mkExc (OtherException "AttributeError") ["endswith"])
  end.

(** The duplicate-dropping loop of [read_sites_from_exposure]. *)
Definition add_site (acc : list (Site F)) (site : Site F) : list (Site F) :=
  if existsb (fun s => Site_eq shapes s site) acc then acc
  else acc ++ [site].

Definition read_sites_from_exposure (p : CalculationProxy F)
  : Res (list (Site F)) :=
  file ← getitem (params p) jobconf.EXPOSURE;
  path ← join_base (base_path p) file;
  constraint ← region p;
  found ← exposure_filter shapes path constraint;
  Ok (foldl add_site [] found).

(** [for coord in coords: sites.append(shapes.Site(coord[0], coord[1]))] *)
Definition sites_of_coords (coords : list (JobVal F * JobVal F))
  : list (Site F) :=
  (fun coord => mkSite coord.1 coord.2) <$> coords.

(** [self.sites = ...; return self.sites]: nothing is stored when the
    right-hand side raises. *)
Definition cache_sites (p : CalculationProxy F) (r : Res (list (Site F)))
  : Res (list (Site F)) * CalculationProxy F :=
  match r with
  | Ok s => (Ok s, set_sites s p)
  | _ => (r, p)
  end.

(** [sites_to_compute]: the result and the proxy with its [sites] cache
    filled (the console message of the exposure branch is not tracked). *)
Definition sites_to_compute (p : CalculationProxy F)
  : Res (list (Site F)) * CalculationProxy F :=
  if negb (bool_decide (sites p = [])) then (Ok (sites p), p)
  else if bool_decide (jobconf.RISK_SECTION ∈ sections p)
          && truthy (has p jobconf.COMPUTE_HAZARD_AT_ASSETS)
  then cache_sites p (read_sites_from_exposure p)
  else if truthy (has p jobconf.SITES)
  then cache_sites p (sites_of_coords <$> _extract_coords p jobconf.SITES)
  else cache_sites p (_sites_for_region p).
End Proxy.

(** ** The calculation table *)

(** The table, the next primary key, and every record written so far, in
    order. *)
Record Database := mkDb {
  rows : gmap Z OqCalculation;
  next_id : Z;
  journal : list OqCalculation
}.

(** The primary key [save()] writes a record under. *)
Definition key_for (c : OqCalculation) (db : Database) : Z :=
  match calc_id c with
  | Some i => i
  | None => next_id db
  end.

(** [calculation.save()]: a new object gets the next key; an object with a
    key replaces its whole row, [status] included.  Returns the object as
    saved. *)
Definition save (c : OqCalculation) (db : Database)
  : OqCalculation * Database :=
  let i := key_for c db in
  let c' := mkCalculation (Some i) (owner c) (oq_job_profile c) (status c)
                          (supervisor_pid c) (job_pid c) in
  (c', mkDb (<[i := c']> (rows db))
            (match calc_id c with
             | Some _ => next_id db
             | None => (next_id db + 1)%Z
             end)
            (journal db ++ [c'])).




(** ** [run_calculation] and [_launch_calculation] *)

Section Run.
Context {F : Type}.

(** Everything a process can touch besides the calculation table: the
    KVS, the logs, the output directory, the other tables. *)
Variable Ext : Type.

Definition World : Type := Database * Ext.

(** A statement: it changes the world and returns or raises. *)
Definition Step : Type := World -> Res unit * World.

Definition and_then (a b : Step) : Step :=
  fun w => match a w with
           | (Ok _, w') => b w'
           | other => other
           end.

Definition skip : Step := fun w => (Ok tt, w).

Definition raise (ex : Exc) : Step := fun w => (Raise ex, w).

(** A calculator class: its four phases, applied to the proxy. *)
Record Calculator := mkCalculator {
  analyze : CalculationProxy F -> Step;
  pre_execute : CalculationProxy F -> Step;
  execute : CalculationProxy F -> Step;
  post_execute : CalculationProxy F -> Step
}.

(** The collaborators of the engine. *)
Variable CALCS : string -> string -> option Calculator.
Variable _record_initial_stats : CalculationProxy F -> Step.
Variable to_kvs : CalculationProxy F -> Step.
Variable make_output_dir : CalculationProxy F -> Step.
Variable init_logs_amqp_send : Z -> Step.
Variable delete_job_counters : Z -> Step.
Variable supervise : Z -> Z -> Step.
Variable catalog : Catalog F.
(* [jobconf.default_validators(sections, params).is_valid()] *)
Variable is_valid : list string -> gmap string string -> bool * list string.
(* [_prepare_job]: writes the input set, the input records and the job
   profile *)
Variable _prepare_job :
  gmap string string -> list string -> World -> Res OqJobProfile * World.

(** Body of [for job_type in ('hazard', 'risk')]. *)
Definition launch_job_type (calc_proxy : CalculationProxy F)
    (sections : list string) (calc_mode : string) (job_type : string)
  : Step :=
  if negb (bool_decide (upper job_type ∈ sections)) then skip
  else
    match CALCS job_type calc_mode with
    | None => raise (mkExc KeyError [calc_mode])
    | Some calculator =>
        and_then (analyze calculator calc_proxy)
       (and_then (pre_execute calculator calc_proxy)
       (and_then (execute calculator calc_proxy)
                 (post_execute calculator calc_proxy)))
    end.

Definition _launch_calculation (calc_proxy : CalculationProxy F)
    (sections : list string) : Step :=
  and_then (_record_initial_stats calc_proxy)
 (and_then (to_kvs calc_proxy)
 (and_then (make_output_dir calc_proxy)
    match proxy_job_profile calc_proxy with
    | None => raise (mkExc (OtherException "AttributeError") ["calc_mode"])
    | Some profile =>
        and_then
          (launch_job_type calc_proxy sections (calc_mode profile) "hazard")
          (launch_job_type calc_proxy sections (calc_mode profile) "risk")
    end)).

(** The calculation executor process: the [try] statement of
    [run_calculation], with [try_body] for the statements under [try].
    Returns how the process ends, its [calculation] object and the
    world. *)
Definition worker_process (try_body : Step) (calculation : OqCalculation)
    (w : World) : Res unit * OqCalculation * World :=
  match try_body w with
  | (Ok _, (db, ext)) =>
      let '(c, db') := save (set_status "succeeded" calculation) db in
      (Ok tt, c, (db', ext))
  | (Raise ex, (db, ext)) =>
      if isinstance_Exception ex then
        let '(c, db') := save (set_status "failed" calculation) db in
        (Raise ex, c, (db', ext))
      else (Raise ex, calculation, (db, ext))
  | (Diverges, w') => (Diverges, calculation, w')
  end.

(** The supervisor process. *)
Definition supervisor_process (calc_pid supervisor_pid : Z)
    (calculation : OqCalculation) (w : World)
  : Res unit * OqCalculation * World :=
  let i := key_for calculation w.1 in
  let '(c, db') := save (set_pids supervisor_pid calc_pid calculation) w.1 in
  let '(r, w') := supervise calc_pid i (db', w.2) in
  (r, c, w').

(** [OqCalculation(owner=...)]: a fresh object, not yet saved. *)
Definition OqCalculation_new (owner : string) : OqCalculation :=
  mkCalculation None owner None "pending" None None.

Definition set_job_profile (profile : OqJobProfile) (c : OqCalculation)
  : OqCalculation :=
  mkCalculation (calc_id c) (owner c) (Some profile) (status c)
                (supervisor_pid c) (job_pid c).

(** [run_calculation] up to the first [fork]: the new record, saved with
    status [running], and the proxy handed to the children. *)
Definition run_calculation_start (job_profile : OqJobProfile)
    (params : gmap string string) (sections : list string)
    (output_type : string) (w : World)
  : Res (OqCalculation * CalculationProxy F) * World :=
  if negb (bool_decide (output_type ∈ ["db"; "xml"])) then
    (Raise (mkExc RuntimeError ["output_type must be 'db' or 'xml'"]), w)
  else
    let calculation :=
      set_status "running"
        (set_job_profile job_profile
           (OqCalculation_new (profile_owner job_profile))) in
    let i := key_for calculation w.1 in
    let '(calculation, db) := save calculation w.1 in
    match delete_job_counters i (db, w.2) with
    | (Ok _, w') =>
        let serialize_results_to :=
          if String.eqb output_type "xml" then ["db"; "xml"] else ["db"] in
        (Ok (calculation,
             CalculationProxy_init params i sections None
               serialize_results_to (Some job_profile) (Some calculation)),
         w')
    | (Raise ex, w') => (Raise ex, w')
    | (Diverges, w') => (Diverges, w')
    end.

(** The statements under [try] in the executor process. *)
Definition worker_try_body (calc_proxy : CalculationProxy F)
    (sections : list string) : Step :=
  and_then (init_logs_amqp_send (_calculation_id calc_proxy))
           (_launch_calculation calc_proxy sections).

(** [import_job_profile] (the diagnostics [_prepare_config_parameters]
    prints are not passed on). *)
Definition import_job_profile (fuel : nat) (os : OS) (path_to_cfg : string)
    (w : World)
  : Res (OqJobProfile * gmap string string * list string) * World :=
  match _parse_config_file fuel os path_to_cfg with
  | Raise ex => (Raise ex, w)
  | Diverges => (Diverges, w)
  | Ok (params, sections) =>
      match (_prepare_config_parameters catalog params sections).1 with
      | Raise ex => (Raise ex, w)
      | Diverges => (Diverges, w)
      | Ok (params, sections) =>
          let '(valid, errors) := is_valid sections params in
          if negb valid then (Raise (mkExc ValidationException errors), w)
          else
            match _prepare_job params sections w with
            | (Ok job_profile, w') => (Ok (job_profile, params, sections), w')
            | (Raise ex, w') => (Raise ex, w')
            | (Diverges, w') => (Diverges, w')
            end
      end
  end.
End Run.

(** ** How a run of the executor process ends *)

(** The executor writes a status when the statements under [try] return or
    raise an [Exception]. *)
Definition returned_or_caught (outcome : Res unit) : bool :=
  match outcome with
  | Ok _ => true
  | Raise ex => isinstance_Exception ex
  | Diverges => false
  end.


(** ** Sample configurations *)

Module Samples.

(** A root file whose first include names a file in a subdirectory and
    whose second names a file next to the root. *)
Definition two_includes : OS :=
  mkOS "/jobs" (list_to_map [
    ("/jobs/config.gem",
     ConfigFile [("general", [("calculation_mode", "Classical");
                              ("hazard_include", "hazard/hazard.gem");
                              ("risk_include", "risk.gem")])]);
    ("/jobs/hazard/hazard.gem",
     ConfigFile [("HAZARD", [("minimum_magnitude", "5.0")])]);
    ("/jobs/risk.gem",
     ConfigFile [("RISK", [("exposure", "exposure.xml")])])]).

(** A root file whose only section holds nothing but an include. *)
Definition include_only : OS :=
  mkOS "/jobs" (list_to_map [
    ("/jobs/config.gem",
     ConfigFile [("general", [("hazard_include", "hazard.gem")])]);
    ("/jobs/hazard.gem",
     ConfigFile [("HAZARD", [("minimum_magnitude", "5.0")])])]).

(** A root file that sets a key, includes a file setting the same key and
    another one, and sets the other one afterwards. *)
Definition overriding : OS :=
  mkOS "/jobs" (list_to_map [
    ("/jobs/config.gem",
     ConfigFile [("general", [("calculation_mode", "Classical");
                              ("output_dir", "out");
                              ("hazard_include", "hazard.gem");
                              ("minimum_magnitude", "6.5")])]);
    ("/jobs/hazard.gem",
     ConfigFile [("HAZARD", [("output_dir", "computed_output");
                             ("minimum_magnitude", "5.0")])])]).

(** A small catalog in the shape of [openquake.job.params].  Floats are
    represented by their decimal literals. *)
Definition all_modes : list string :=
  ["classical"; "event_based"; "scenario"; "disaggregation"; "uhs";
   "classical_bcr"; "event_based_bcr"].

Definition is_separator (c : ascii) : bool :=
  Ascii.eqb c " "%char || Ascii.eqb c ","%char
  || Ascii.eqb c "009"%char || Ascii.eqb c "010"%char.

(** The non-empty pieces of a text between runs of blanks and commas. *)
Fixpoint array_split (text current : string) : list string :=
  match text with
  | EmptyString => if String.eqb current "" then [] else [current]
  | String c rest =>
      if is_separator c then
        if String.eqb current "" then array_split rest ""
        else current :: array_split rest ""
      else array_split rest (current +:+ String c EmptyString)
  end.

Definition text_to_floats (text : string) : Res (JobVal string) :=
  Ok (VFloats (array_split text "")).

Definition text_to_float (text : string) : Res (JobVal string) :=
  Ok (VFloat text).

Definition catalog : Catalog string :=
  mkCatalog
    (list_to_map [("Classical", "classical");
                  ("Event Based", "event_based");
                  ("Scenario", "scenario");
                  ("Classical BCR", "classical_bcr")])
    (list_to_map [
       ("CALCULATION_MODE", mkParam all_modes None);
       ("BASE_PATH", mkParam all_modes None);
       ("OUTPUT_DIR", mkParam all_modes None);
       ("SITES", mkParam all_modes (Some text_to_floats));
       ("REGION_VERTEX", mkParam all_modes (Some text_to_floats));
       ("REGION_GRID_SPACING", mkParam all_modes (Some text_to_float));
       ("COMPUTE_HAZARD_AT_ASSETS_LOCATIONS",
        mkParam ["classical"; "event_based"; "scenario"] None);
       ("COMPUTE_MEAN_HAZARD_CURVE", mkParam ["classical"] None);
       ("EXPOSURE", mkParam all_modes None);
       ("GMF_RANDOM_SEED", mkParam ["event_based"; "scenario"] None)])
    ["EXPOSURE"; "VULNERABILITY"].

(** A resolved classical hazard-and-risk configuration. *)
Definition classical_params : gmap string string :=
  list_to_map [("CALCULATION_MODE", "Classical");
               ("BASE_PATH", "/jobs");
               ("EXPOSURE", "exposure.xml");
               ("COMPUTE_MEAN_HAZARD_CURVE", "false");
               ("GMF_RANDOM_SEED", "3");
               ("NOT_A_PARAMETER", "x")].

Definition hazard_and_risk : list string := ["general"; "HAZARD"; "RISK"].

(** Stand-ins for [openquake.shapes]: a region is its vertices and cell
    size, and iterating over it yields its vertices. *)
Definition jobval_eqb (a b : JobVal string) : bool :=
  match a, b with
  | VNone, VNone => true
  | VStr x, VStr y | VFloat x, VFloat y => String.eqb x y
  | _, _ => false
  end.

Definition shapes : Shapes string :=
  mkShapes string
    (list (JobVal string * JobVal string) * JobVal string)%type
    (fun coords => Ok (coords, VNone))
    (fun coords => Ok (coords, VNone))
    (fun r v => (r.1, v))
    (fun r => Ok ((fun c => mkSite c.1 c.2) <$> r.1))
    (fun a b => jobval_eqb (longitude a) (longitude b)
                && jobval_eqb (latitude a) (latitude b))
    (fun _ _ => Ok [])
    (fun v => match v with
              | VFloat x | VStr x => Ok x
              | _ => Raise (mkExc TypeError ["float"])
              end).

(** The proxy of a hazard job over two explicit sites. *)
Definition sites_proxy : CalculationProxy string :=
  CalculationProxy_init
    (list_to_map [("SITES", "37.5,-122.2 37.5,-122.1")])
    1 ["HAZARD"] None ["db"] None None.

(** A proxy whose selection parameters are all set to the empty string. *)
Definition blank_proxy : CalculationProxy string :=
  CalculationProxy_init
    (list_to_map [("SITES", "");
                  ("COMPUTE_HAZARD_AT_ASSETS_LOCATIONS", "");
                  ("REGION_VERTEX", "")])
    2 ["HAZARD"; "RISK"] None ["db"] None None.

(** A calculation as [run_calculation] hands it to its children, and the
    table holding it. *)
Definition running_calculation : OqCalculation :=
  mkCalculation (Some 7%Z) "openquake" None "running" None None.

Definition running_db : Database :=
  mkDb {[7%Z := running_calculation]} 8 [running_calculation].


End Samples.

(** ** More sample data *)

Module Cases.

(** A file that includes itself. *)
Definition self_including : OS :=
  mkOS "/jobs" (list_to_map [
    ("/jobs/loop.gem",
     ConfigFile [("general", [("loop_include", "loop.gem");
                              ("calculation_mode", "Classical")])])]).

(** A configuration with a path parameter and no [BASE_PATH]. *)
Definition no_base_path : gmap string string :=
  list_to_map [("CALCULATION_MODE", "Classical");
               ("EXPOSURE", "exposure.xml")].

(** What resolving [Samples.overriding] gives. *)
Definition overriding_params : gmap string string :=
  list_to_map [("BASE_PATH", "/jobs");
               ("CALCULATION_MODE", "Classical");
               ("OUTPUT_DIR", "computed_output");
               ("MINIMUM_MAGNITUDE", "6.5")].

Definition overriding_sections : list string :=
  elements (list_to_set ["general"; "HAZARD"] : gset string).

(** What preparing [Samples.classical_params] gives. *)
Definition prepared_classical : gmap string string :=
  list_to_map [("CALCULATION_MODE", "Classical");
               ("BASE_PATH", "/jobs");
               ("EXPOSURE", "/jobs/exposure.xml");
               ("COMPUTE_MEAN_HAZARD_CURVE", "true")].

(** A classical hazard and risk job in one file, naming its exposure file
    and switching the mean curve off; what resolving it gives. *)
Definition risk_job : OS :=
  mkOS "/jobs" (list_to_map [
    ("/jobs/config.gem",
     ConfigFile [("general", [("calculation_mode", "Classical")]);
                 ("HAZARD", [("compute_mean_hazard_curve", "false")]);
                 ("RISK", [("exposure", "exposure.xml");
                           ("not_a_parameter", "x")])])]).

Definition risk_job_params : gmap string string :=
  list_to_map [("BASE_PATH", "/jobs");
               ("CALCULATION_MODE", "Classical");
               ("COMPUTE_MEAN_HAZARD_CURVE", "false");
               ("EXPOSURE", "exposure.xml");
               ("NOT_A_PARAMETER", "x")].

Definition risk_job_sections : list string :=
  elements (list_to_set ["general"; "HAZARD"; "RISK"] : gset string).

End Cases.

(** ** Lists of sites without repetition *)

(** No site of the list is equal, in the sense of [site in sites], to one
    that stands before it. *)
Definition no_repeated_site {F} (shapes : Shapes F) (l : list (Site F))
  : Prop :=
  forall i j a b, i < j -> l !! i = Some a -> l !! j = Some b ->
                  Site_eq shapes a b = false.

(** ** More sample collaborators *)

Module Cases2.
(** A reader that yields one site twice. *)
Definition exposure_shapes : Shapes string :=
  mkShapes string
    (list (JobVal string * JobVal string) * JobVal string)%type
    (fun coords => Ok (coords, VNone))
    (fun coords => Ok (coords, VNone))
    (fun r v => (r.1, v))
    (fun r => Ok ((fun c => mkSite c.1 c.2) <$> r.1))
    (fun a b => Samples.jobval_eqb (longitude a) (longitude b)
                && Samples.jobval_eqb (latitude a) (latitude b))
    (fun _ _ => Ok [mkSite (VFloat "9.15") (VFloat "45.16");
                    mkSite (VFloat "9.15") (VFloat "45.12");
                    mkSite (VFloat "9.15") (VFloat "45.16")])
    (fun v => match v with
              | VFloat x | VStr x => Ok x
              | _ => Raise (mkExc TypeError ["float"])
              end).

Definition exposure_proxy : CalculationProxy string :=
  CalculationProxy_init
    (list_to_map [("EXPOSURE", "exposure.xml");
                  ("COMPUTE_HAZARD_AT_ASSETS_LOCATIONS", "true")])
    3 ["RISK"] (Some "/jobs") ["db"] None None.

Definition profile : OqJobProfile := mkJobProfile 11 "openquake" "classical".

(** A counter-clearing collaborator that does nothing else. *)
Definition no_counters (i : Z) : Step unit := fun w => (Ok tt, w).

(** A validator that refuses everything, and a [_prepare_job] that would
    leave a mark in the world. *)
Definition refuse_all (sections : list string) (params : gmap string string)
  : bool * list string := (false, ["Parameter missing"]).

Definition marking_prepare_job (params : gmap string string)
    (sections : list string) (w : World nat) : Res OqJobProfile * World nat :=
  (Ok profile, (w.1, S w.2)).
End Cases2.

(** ** More of Python's strings *)

Module Str.

(** [s.endswith(suffix)]: some tail of [s] is [suffix]. *)
Fixpoint endswith (suffix s : string) : bool :=
  String.eqb s suffix
  || match s with
     | EmptyString => false
     | String _ rest => endswith suffix rest
     end.

(** The characters [str.strip()] removes. *)
Definition is_space (c : ascii) : bool :=
  let n := nat_of_ascii c in
  Nat.eqb n 32 || ((9 <=? n)%nat && (n <=? 13)%nat).

Fixpoint lstrip (s : string) : string :=
  match s with
  | EmptyString => EmptyString
  | String c rest => if is_space c then lstrip rest else s
  end.

Fixpoint rstrip (s : string) : string :=
  match s with
  | EmptyString => EmptyString
  | String c rest =>
      let rest' := rstrip rest in
      if is_space c && String.eqb rest' "" then EmptyString
      else String c rest'
  end.

Definition strip (s : string) : string := rstrip (lstrip s).

(** [s[-n:]] for [n] positive. *)
Definition last_chars (n : nat) (s : string) : string :=
  String.substring (String.length s - n) n s.

End Str.

(** ** [_get_source_models] *)

(** An element as [etree.iterparse] hands it over. *)
Record Element := mkElement {
  tag : string;
  text : option string
}.

Section SourceModels.
(** [etree.iterparse(path)]: the elements it hands over, in the order
    they end, and the error that stops it, if any (a file that is missing
    or not well formed). *)
Variable iterparse : string -> list Element * option Exc.
(** [xml.NRML + 'uncertaintyModel'] *)
Variable uncert_mdl_tag : string.

(** Body of [for _event, elem in etree.iterparse(logic_tree)]. *)
Definition source_model_step (base_path : string) (model_files : list string)
    (elem : Element) : Res (list string) :=
  if String.eqb (tag elem) uncert_mdl_tag then
    match text elem with
    | None => Raise (mkExc (OtherException "AttributeError") ["strip"])
    | Some t =>
        let e_text := Str.strip t in
        if Str.endswith ".xml" e_text
        then Ok (model_files ++ [posixpath.join base_path e_text])
        else Ok model_files
    end
  else Ok model_files.

Definition _get_source_models (cwd logic_tree : string) : Res (list string) :=
  if negb (Str.endswith ".xml" logic_tree) then Ok []
  else
    let base_path := posixpath.dirname (posixpath.abspath cwd logic_tree) in
    let '(elems, failure) := iterparse logic_tree in
    model_files ← for_each (source_model_step base_path) [] elems;
    match failure with
    | None => Ok model_files
    | Some ex => Raise ex
    end.
End SourceModels.

Module Cases3.
Definition logic_tree : list Element :=
  [mkElement "{nrml}uncertaintyModel" (Some "  source_model1.xml
    ");
   mkElement "{nrml}uncertaintyWeight" (Some "0.5");
   mkElement "{nrml}uncertaintyModel" (Some "0.2");
   mkElement "{nrml}uncertaintyModel" (Some "models/source_model2.xml")].

Definition parse_logic_tree (path : string) : list Element * option Exc :=
  if String.eqb path "trees/logic_tree.xml" then (logic_tree, None)
  else ([], Some (mkExc (OtherException "IOError") [path])).
End Cases3.

(** ** The KVS: [_slurp_files], [to_kvs] and [from_kvs] *)

(** What the engine uses of [openquake.kvs]. *)
Record KvsClient := mkKvsClient {
  Kvs : Type;
  (* [kvs_client.set(key, value)] and [kvs_client.get(key)] *)
  kvs_set : string -> string -> Kvs -> Kvs;
  kvs_get : string -> Kvs -> option string;
  set_value_json_encoded : string -> gmap string string -> Kvs -> Kvs;
  get_value_json_decoded : string -> Kvs -> Res (gmap string string);
  (* [kvs.tokens] *)
  generate_blob_key : Z -> string -> string;
  generate_job_key : Z -> string
}.

Section KvsStaging.
Context {F : Type}.
Variable client : KvsClient.
(** [open(path).read()], with whatever opening or reading raises. *)
Variable read_file : string -> Res string.
(** [FLAGS.debug] *)
Variable FLAGS_debug : string.

Definition set_params (m : gmap string string) (p : CalculationProxy F)
  : CalculationProxy F :=
  mkProxy (_calculation_id p) (sites p) (blocks_keys p) m (sections p)
          (serialize_results_to p) (_base_path p) (proxy_job_profile p)
          (proxy_calculation p).

(** The [job_id] property. *)
Definition job_id (p : CalculationProxy F) : Z := _calculation_id p.

(** [key[-5:] == '_FILE'] *)
Definition is_file_key (key : string) : bool :=
  String.eqb (Str.last_chars 5 key) "_FILE".

(** Body of [for key, val in self.params.items()]; the state is kept when
    the body raises. *)
Definition slurp_item (st : CalculationProxy F * Kvs client)
    (item : string * string) : Res unit * (CalculationProxy F * Kvs client) :=
  let '(key, val) := item in
  if is_file_key key then
    match join_base (base_path st.1) val with
    | Ok path =>
        match read_file path with
        | Ok blob =>
            let file_key := generate_blob_key client (job_id st.1) blob in
            (Ok tt,
             (set_params (<[key +:+ "_PATH" := path]>
                            (<[key := file_key]> (params st.1))) st.1,
              kvs_set client file_key blob st.2))
        | Raise ex => (Raise ex, st)
        | Diverges => (Diverges, st)
        end
    | Raise ex => (Raise ex, st)
    | Diverges => (Diverges, st)
    end
  else (Ok tt, st).

Fixpoint slurp_loop (items : list (string * string))
    (st : CalculationProxy F * Kvs client)
  : Res unit * (CalculationProxy F * Kvs client) :=
  match items with
  | [] => (Ok tt, st)
  | item :: rest =>
      match slurp_item st item with
      | (Ok _, st') => slurp_loop rest st'
      | other => other
      end
  end.

(** [_slurp_files]: the loop runs over the items the mapping had when it
    started. *)
Definition _slurp_files (p : CalculationProxy F) (kvs : Kvs client)
  : Res unit * (CalculationProxy F * Kvs client) :=
  match base_path p with
  | None => (Ok tt, (p, kvs))
  | Some _ => slurp_loop (map_to_list (params p)) (p, kvs)
  end.

Definition to_kvs (p : CalculationProxy F) (kvs : Kvs client)
  : Res unit * (CalculationProxy F * Kvs client) :=
  match _slurp_files p kvs with
  | (Ok _, (p', kvs')) =>
      let key := generate_job_key client (job_id p') in
      let data := <["debug" := FLAGS_debug]> (params p') in
      (Ok tt, (p', set_value_json_encoded client key data kvs'))
  | other => other
  end.

(** [CalculationProxy.from_kvs] *)
Definition from_kvs (job_id : Z) (kvs : Kvs client) (db : Database)
  : Res (CalculationProxy F) :=
  params ← get_value_json_decoded client (generate_job_key client job_id) kvs;
  calculation ← match rows db !! job_id with
                | Some c => Ok c
                | None => Raise (mkExc (OtherException "DoesNotExist") [])
                end;
  Ok (CalculationProxy_init params job_id [] None []
        (oq_job_profile calculation) (Some calculation)).
End KvsStaging.

Module Cases4.
(** A KVS kept in one dictionary, holding raw strings and JSON documents. *)
Definition dict_client : KvsClient :=
  mkKvsClient
    (gmap string (string + gmap string string))
    (fun key value s => <[key := inl value]> s)
    (fun key s => match s !! key with Some (inl value) => Some value
                                 | _ => None end)
    (fun key data s => <[key := inr data]> s)
    (fun key s => match s !! key with
                  | Some (inr data) => Ok data
                  | _ => Raise (mkExc TypeError ["expected string or buffer"])
                  end)
    (fun job blob => "blob!" +:+ blob)
    (fun job => "job!").

(** A disk with one readable file. *)
Definition one_file (path : string) : Res string :=
  if String.eqb path "/jobs/small/exposure.xml" then Ok "<exposure/>"
  else Raise (mkExc (OtherException "IOError")
                ["No such file or directory: " +:+ path]).

Definition staged_proxy : CalculationProxy string :=
  CalculationProxy_init
    (list_to_map [("EXPOSURE_FILE", "exposure.xml");
                  ("CALCULATION_MODE", "Event Based");
                  ("BASE_PATH", "/jobs/small")])
    7 ["RISK"] None ["db"] None None.

(** The same job with a second input that is not on the disk. *)
Definition unreadable_proxy : CalculationProxy string :=
  set_params (<["VULNERABILITY_FILE" := "vulnerability.xml"]>
                (params staged_proxy)) staged_proxy.
End Cases4.

(** * Properties *)

(** ** The model at work *)

Example join_relative : posixpath.join "/jobs" "hazard/hazard.gem"
                        = "/jobs/hazard/hazard.gem".
Proof. reflexivity. Qed.

Example join_absolute_second : posixpath.join "/jobs" "/etc/risk.gem"
                               = "/etc/risk.gem".
Proof. reflexivity. Qed.

Example dirname_of_file : posixpath.dirname "/jobs/hazard/hazard.gem"
                          = "/jobs/hazard".
Proof. reflexivity. Qed.

Example normpath_collapses : posixpath.normpath "/jobs/./hazard/../risk//x.gem"
                             = "/jobs/risk/x.gem".
Proof. reflexivity. Qed.

Example abspath_of_relative : posixpath.abspath "/jobs" "../etc/config.gem"
                              = "/etc/config.gem".
Proof. reflexivity. Qed.

Example include_key_matches :
  RE_INCLUDE_match "HAZARD_INCLUDE" = true
  /\ RE_INCLUDE_match "CALCULATION_MODE" = false.
Proof. split; reflexivity. Qed.

(** With both includes next to the root file, resolution goes through: the
    included parameters are merged and [general], which holds only the two
    include directives, is not among the sections. *)
Example resolve_flat_includes :
  _parse_config_file 2
    (mkOS "/jobs" (list_to_map [
       ("/jobs/config.gem",
        ConfigFile [("general", [("hazard_include", "hazard.gem");
                                 ("risk_include", "risk.gem")])]);
       ("/jobs/hazard.gem", ConfigFile [("HAZARD", [("width", "1.0")])]);
       ("/jobs/risk.gem", ConfigFile [("RISK", [("width", "2.0")])])]))
    "config.gem"
  = Ok (list_to_map [("BASE_PATH", "/jobs"); ("WIDTH", "2.0")],
        elements ({["HAZARD"; "RISK"]} : gset string)).
Proof. vm_compute. reflexivity. Qed.

(** ** Configuration resolution *)

Section ResolutionFacts.
Implicit Types (m : gmap string string) (entries : list Entry).

Lemma foldl_insert_entries m entries :
  foldl (fun m e => <[entry_key e := entry_value e]> m) m entries
  = merge_entries entries ∪ m.
Proof.
  unfold merge_entries. revert m.
  induction entries as [|e entries IH]; intros m; simpl.
  - by rewrite (left_id_L ∅ (∪)).
  - rewrite (IH (<[_ := _]> m)), (IH (<[_ := _]> ∅)).
    rewrite <- (assoc_L (∪)). f_equal.
    rewrite insert_union_singleton_l.
    by rewrite insert_empty.
Qed.

Lemma merge_entries_app entries1 entries2 :
  merge_entries (entries1 ++ entries2)
  = merge_entries entries2 ∪ merge_entries entries1.
Proof.
  unfold merge_entries at 1. rewrite foldl_app.
  apply foldl_insert_entries.
Qed.

Lemma merge_entries_snoc entries e :
  merge_entries (entries ++ [e])
  = <[entry_key e := entry_value e]> (merge_entries entries).
Proof. unfold merge_entries. by rewrite foldl_app. Qed.

Lemma sections_of_entries_app entries1 entries2 :
  sections_of_entries (entries1 ++ entries2)
  = sections_of_entries entries1 ∪ sections_of_entries entries2.
Proof.
  unfold sections_of_entries. by rewrite fmap_app, list_to_set_app_L.
Qed.
End ResolutionFacts.

Section LoopsAgree.
Variable parse_rec : string -> Res (gmap string string * list string).
Variable visit_rec : string -> Res (list string * list Entry).
Hypothesis rec_agree : forall file files entries,
  visit_rec file = Ok (files, entries) ->
  exists base, parse_rec file
    = Ok (<["BASE_PATH" := base]> (merge_entries entries),
          elements (sections_of_entries entries)).

Lemma parse_item_agrees section pst vst item vst' :
  locals_agree pst vst ->
  visit_item visit_rec section vst item = Ok vst' ->
  exists pst', parse_item parse_rec section pst item = Ok pst'
               /\ locals_agree pst' vst'.
Proof.
  intros (Hfile & Hparams & Hsections).
  unfold visit_item, parse_item.
  destruct (RE_INCLUDE_match (upper item.1)); rewrite Hfile.
  - destruct (visit_rec _) as [[files entries]| |] eqn:Hvisit;
      simpl; try discriminate.
    intros [= <-].
    destruct (rec_agree _ _ _ Hvisit) as [base ->]. simpl.
    eexists; split; [reflexivity|].
    repeat split; simpl.
    + rewrite merge_entries_app, !delete_union, Hparams.
      by rewrite delete_insert_eq.
    + rewrite list_to_set_app_L, list_to_set_elements_L, Hsections.
      by rewrite sections_of_entries_app.
  - intros [= <-]. eexists; split; [reflexivity|].
    repeat split; simpl.
    + rewrite merge_entries_snoc. unfold entry_key, entry_value; simpl.
      destruct (decide (upper item.1 = "BASE_PATH")) as [->|Hne].
      * by rewrite !delete_insert_eq.
      * rewrite !delete_insert_ne by congruence. by rewrite Hparams.
    + rewrite list_to_set_app_L, Hsections, sections_of_entries_app.
      unfold sections_of_entries. simpl. set_solver.
Qed.

Lemma parse_items_agree section items : forall pst vst vst',
  locals_agree pst vst ->
  for_each (visit_item visit_rec section) vst items = Ok vst' ->
  exists pst', for_each (parse_item parse_rec section) pst items = Ok pst'
               /\ locals_agree pst' vst'.
Proof.
  induction items as [|item items IH]; intros pst vst vst' Hagree; simpl.
  - intros [= <-]. eauto.
  - destruct (visit_item _ _ vst item) as [vst1| |] eqn:Hitem;
      simpl; try discriminate.
    destruct (parse_item_agrees _ _ _ _ _ Hagree Hitem)
      as (pst1 & -> & Hagree1).
    simpl. eauto.
Qed.

Lemma parse_sections_agree secs : forall pst vst vst',
  locals_agree pst vst ->
  for_each (visit_section visit_rec) vst secs = Ok vst' ->
  exists pst', for_each (parse_section parse_rec) pst secs = Ok pst'
               /\ locals_agree pst' vst'.
Proof.
  induction secs as [|sec secs IH]; intros pst vst vst' Hagree; simpl.
  - intros [= <-]. eauto.
  - destruct (visit_section _ vst sec) as [vst1| |] eqn:Hsec;
      simpl; try discriminate.
    destruct (parse_items_agree _ _ _ _ _ Hagree Hsec)
      as (pst1 & Hpst1 & Hagree1).
    unfold parse_section at 1. rewrite Hpst1. simpl. eauto.
Qed.
End LoopsAgree.

Lemma parse_follows_visit fuel os : forall config_file files entries,
  visit fuel os config_file = Ok (files, entries) ->
  _parse_config_file fuel os config_file
  = Ok (<["BASE_PATH" := base_path_of os config_file]> (merge_entries entries),
        elements (sections_of_entries entries)).
Proof.
  induction fuel as [|fuel IH]; intros config_file files entries; simpl;
    [discriminate|].
  destruct (path_exists os _); simpl; [|discriminate].
  destruct (for_each (visit_section _) _ _) as [vst| |] eqn:Hloop;
    simpl; try discriminate.
  intros [= <- <-].
  eapply parse_sections_agree
    with (parse_rec := _parse_config_file fuel os)
         (pst := mkLocals (posixpath.abspath (getcwd os) config_file) ∅ [])
    in Hloop as (pst & -> & _ & Hparams & Hsections).
  - simpl. unfold base_path_of. f_equal. f_equal.
    + by rewrite <- insert_delete_eq, Hparams, insert_delete_eq.
    + by rewrite Hsections.
  - intros file files' entries' Hvisit. erewrite IH by eassumption. eauto.
  - by repeat split.
Qed.

Lemma for_each_ok_mono {A S} (body1 body2 : S -> A -> Res S) xs :
  (forall s a s', body1 s a = Ok s' -> body2 s a = Ok s') ->
  forall s s', for_each body1 s xs = Ok s' -> for_each body2 s xs = Ok s'.
Proof.
  intros Hbody. induction xs as [|x xs IH]; intros s s'; simpl; [done|].
  destruct (body1 s x) as [s1| |] eqn:Hstep; simpl; try discriminate.
  rewrite (Hbody _ _ _ Hstep). simpl. apply IH.
Qed.

(** A traversal that completes is not changed by a larger budget. *)
Lemma visit_more_fuel fuel os : forall fuel' config_file result,
  fuel <= fuel' ->
  visit fuel os config_file = Ok result ->
  visit fuel' os config_file = Ok result.
Proof.
  induction fuel as [|fuel IH]; intros fuel' config_file result Hle;
    simpl; [discriminate|].
  destruct fuel' as [|fuel']; [lia|]. simpl.
  destruct (path_exists os _); simpl; [|discriminate].
  destruct (for_each (visit_section (visit fuel os)) _ _) as [st| |] eqn:Hloop;
    simpl; try discriminate.
  intros [= <-].
  erewrite for_each_ok_mono; [reflexivity| |exact Hloop].
  intros st1 sec st2. unfold visit_section. apply for_each_ok_mono.
  intros st3 item st4. unfold visit_item.
  destruct (RE_INCLUDE_match _); [|done].
  destruct (visit fuel os _) as [sub| |] eqn:Hsub; simpl; try discriminate.
  by rewrite (IH fuel' _ _ ltac:(lia) Hsub).
Qed.

(** C4 (as amended).  When the include traversal from [config_file]
    completes within some budget, [_parse_config_file] returns, with that
    budget or a larger one; its parameter mapping is the last-write-wins
    merge of the parameter lines of the visited files other than include
    directives, each included file's lines taken at the place of its include
    directive, with [BASE_PATH] set to the root file's directory; and its
    sections list has no duplicates and holds exactly the sections under
    which such a line stands. *)
Theorem parse_config_file_merges_entries fuel os config_file files entries :
  visit fuel os config_file = Ok (files, entries) ->
  forall fuel', fuel <= fuel' ->
  exists sections,
    _parse_config_file fuel' os config_file
    = Ok (<["BASE_PATH" := base_path_of os config_file]>
            (merge_entries entries), sections)
    /\ NoDup sections
    /\ list_to_set sections = sections_of_entries entries.
Proof.
  intros Hvisit fuel' Hle.
  apply (visit_more_fuel _ _ fuel' _ _ Hle) in Hvisit.
  rewrite (parse_follows_visit _ _ _ _ _ Hvisit).
  eexists; split; [reflexivity|]. split.
  - apply NoDup_elements.
  - apply list_to_set_elements_L.
Qed.

Lemma parse_config_file_merges_entries_witness :
  exists sections,
    _parse_config_file 2 Samples.overriding "config.gem"
    = Ok (<["BASE_PATH" := "/jobs"]>
            (merge_entries [("general", "CALCULATION_MODE", "Classical");
                            ("general", "OUTPUT_DIR", "out");
                            ("HAZARD", "OUTPUT_DIR", "computed_output");
                            ("HAZARD", "MINIMUM_MAGNITUDE", "5.0");
                            ("general", "MINIMUM_MAGNITUDE", "6.5")]),
          sections)
    /\ NoDup sections
    /\ list_to_set sections = ({["general"; "HAZARD"]} : gset string).
Proof.
  destruct (parse_config_file_merges_entries 2 Samples.overriding "config.gem"
              ["/jobs/config.gem"; "/jobs/hazard.gem"]
              [("general", "CALCULATION_MODE", "Classical");
               ("general", "OUTPUT_DIR", "out");
               ("HAZARD", "OUTPUT_DIR", "computed_output");
               ("HAZARD", "MINIMUM_MAGNITUDE", "5.0");
               ("general", "MINIMUM_MAGNITUDE", "6.5")]
              ltac:(vm_compute; reflexivity) 2 (le_n 2))
    as (sections & Hparse & Hnodup & Hset).
  - exists sections. split; [exact Hparse|]. split; [exact Hnodup|].
    rewrite Hset. vm_compute. reflexivity.
Defined.

(** C4 (as stated) fails: for a root file whose [general] section holds
    only an include directive, the sections returned are not the union of
    the sections of the two visited files ([general] is missing), and the
    mapping returned is not the merge of all their key/value pairs (the
    include directive's own pair is left out). *)
Lemma include_only_section_is_dropped :
  exists files entries params sections,
    visit 2 Samples.include_only "config.gem" = Ok (files, entries)
    /\ _parse_config_file 2 Samples.include_only "config.gem"
       = Ok (params, sections)
    /\ files = ["/jobs/config.gem"; "/jobs/hazard.gem"]
    /\ sections = ["HAZARD"]
    /\ list_to_set sections ≠ union_of_sections Samples.include_only files
    /\ params ≠ <["BASE_PATH" := base_path_of Samples.include_only "config.gem"]>
                  (merge_files Samples.include_only files).
Proof.
  exists ["/jobs/config.gem"; "/jobs/hazard.gem"],
         [("HAZARD", "MINIMUM_MAGNITUDE", "5.0")],
         (<["BASE_PATH" := "/jobs"]> {["MINIMUM_MAGNITUDE" := "5.0"]}),
         ["HAZARD"].
  split; [vm_compute; reflexivity|].
  split; [vm_compute; reflexivity|].
  split; [reflexivity|]. split; [reflexivity|]. split.
  - intros Hsections.
    assert (Hin : "general" ∈ union_of_sections Samples.include_only
                    ["/jobs/config.gem"; "/jobs/hazard.gem"]).
    { unfold union_of_sections. simpl. set_solver. }
    rewrite <- Hsections in Hin. set_solver.
  - intros Hparams.
    apply (f_equal (fun m : gmap string string => m !! "HAZARD_INCLUDE"))
      in Hparams.
    vm_compute in Hparams. discriminate.
Qed.

(** C3.  With two include directives in one file, the second is resolved
    against the directory of the file the first one named: the root
    [/jobs/config.gem] includes [hazard/hazard.gem] and then [risk.gem];
    [/jobs/risk.gem] exists, yet the resolver looks for
    [/jobs/hazard/risk.gem] and fails. *)
Theorem second_include_resolved_against_first_include :
  path_exists Samples.two_includes "/jobs/risk.gem" = true
  /\ _parse_config_file 2 Samples.two_includes "/jobs/config.gem"
     = Raise (mkExc ValidationException
                    ["File '/jobs/hazard/risk.gem' not found"]).
Proof. split; vm_compute; reflexivity. Qed.

(** C2.  When the absolute form of the path names nothing in the file
    system, [_parse_config_file] raises the validation exception carrying
    the "not found" message, and [import_job_profile] raises it leaving the
    world (the database included) as it was. *)
Theorem missing_config_file_not_found fuel os config_file :
  files os !! posixpath.abspath (getcwd os) config_file = None ->
  let not_found :=
    mkExc ValidationException
      [not_found_message (posixpath.abspath (getcwd os) config_file)] in
  _parse_config_file (S fuel) os config_file = Raise not_found
  /\ forall (F Ext : Type) (catalog : Catalog F) is_valid _prepare_job
            (w : World Ext),
       import_job_profile Ext catalog is_valid _prepare_job
                          (S fuel) os config_file w
       = (Raise not_found, w).
Proof.
  intros Hmissing not_found.
  assert (Hparse : _parse_config_file (S fuel) os config_file
                   = Raise not_found).
  { simpl. unfold path_exists. rewrite Hmissing.
    rewrite bool_decide_eq_false_2 by (intros [? ?]; discriminate).
    reflexivity. }
  split; [exact Hparse|].
  intros. unfold import_job_profile. by rewrite Hparse.
Qed.

Lemma missing_config_file_not_found_witness :
  _parse_config_file 1 Samples.include_only "missing.gem"
  = Raise (mkExc ValidationException ["File '/jobs/missing.gem' not found"]).
Proof.
  apply (missing_config_file_not_found 0 Samples.include_only "missing.gem").
  vm_compute. reflexivity.
Defined.

(** ** Parameter preparation *)

Section PathFacts.
Import posixpath.

Lemma isabs_append a b : isabs a = true -> isabs (a +:+ b) = true.
Proof. by destruct a. Qed.

Lemma join_isabs a b : isabs a = true -> isabs (join a b) = true.
Proof.
  intros Ha. unfold join. destruct (isabs b) eqn:Hb; [done|].
  destruct (_ || _); by apply isabs_append.
Qed.

Lemma join_absolute a b : isabs b = true -> join a b = b.
Proof. intros Hb. unfold join. by rewrite Hb. Qed.

Lemma join_join a b : isabs a = true -> join a (join a b) = join a b.
Proof. intros Ha. by apply join_absolute, join_isabs. Qed.

Lemma normpath_isabs p : isabs p = true -> isabs (normpath p) = true.
Proof.
  intros Hp. unfold normpath.
  destruct (String.eqb p "") eqn:Hempty.
  { apply String.eqb_eq in Hempty. by subst. }
  rewrite Hp. simpl.
  destruct (String.prefix "//" p && negb (String.prefix "///" p));
    match goal with
    | |- context [String.eqb ?s ""] => by destruct (String.eqb s "") eqn:?
    end.
Qed.

Lemma abspath_isabs cwd p : isabs cwd = true -> isabs (abspath cwd p) = true.
Proof.
  intros Hcwd. unfold abspath. apply normpath_isabs.
  destruct (isabs p) eqn:Hp; [done|]. by apply join_isabs.
Qed.
End PathFacts.

Section PrepareFacts.
Context {F : Type}.
Variable catalog : Catalog F.
Implicit Types (params m : gmap string string) (name k : string).
Local Arguments filter_step : simpl never.
Local Arguments path_step : simpl never.

Lemma filter_step_fst calc_mode acc name value :
  (filter_step catalog calc_mode acc (name, value)).1
  = if known_in_mode catalog calc_mode name
    then <[name := value]> acc.1 else acc.1.
Proof.
  unfold filter_step, known_in_mode.
  destruct (PARAMS catalog !! name) as [param|]; [|done].
  by destruct (bool_decide _).
Qed.

Lemma filter_loop_lookup calc_mode (items : list (string * string)) k :
  forall acc,
  NoDup items.*1 ->
  (foldl (filter_step catalog calc_mode) acc items).1 !! k
  = if known_in_mode catalog calc_mode k
    then match (list_to_map items : gmap string string) !! k with
         | Some v => Some v
         | None => acc.1 !! k
         end
    else acc.1 !! k.
Proof.
  induction items as [|[name value] items IH]; intros acc Hnodup; simpl.
  - rewrite lookup_empty. by destruct (known_in_mode _ _ _).
  - apply NoDup_cons in Hnodup as [Hfresh Hnodup].
    rewrite IH by done. rewrite filter_step_fst.
    destruct (decide (name = k)) as [->|Hne].
    + rewrite lookup_insert_eq.
      rewrite (not_elem_of_list_to_map_1 _ _ Hfresh).
      destruct (known_in_mode _ _ _); [|done].
      by rewrite lookup_insert_eq.
    + rewrite (lookup_insert_ne _ _ _ _ Hne).
      destruct (known_in_mode _ _ k), (known_in_mode _ _ name);
        by rewrite ?(lookup_insert_ne _ _ _ _ Hne).
Qed.

(** The first loop keeps exactly the parameters the catalog knows for the
    mode. *)
Lemma filtered_lookup calc_mode params k :
  (foldl (filter_step catalog calc_mode) (∅, []) (map_to_list params)).1 !! k
  = if known_in_mode catalog calc_mode k then params !! k else None.
Proof.
  rewrite filter_loop_lookup by apply NoDup_fst_map_to_list.
  rewrite list_to_map_to_list. simpl. rewrite lookup_empty.
  destruct (known_in_mode _ _ _); [|done]. by destruct (params !! k).
Qed.

Lemma path_step_keys params m name m' k :
  path_step params m name = Ok m' ->
  is_Some (m' !! k) -> is_Some (m !! k).
Proof.
  unfold path_step. destruct (m !! name) as [value|] eqn:Hname.
  - destruct (getitem params "BASE_PATH"); simpl; try discriminate.
    intros [= <-]. destruct (decide (name = k)) as [->|Hne].
    + by rewrite Hname.
    + by rewrite lookup_insert_ne.
  - by intros [= <-].
Qed.

Lemma path_loop_keys params names : forall m m' k,
  for_each (path_step params) m names = Ok m' ->
  is_Some (m' !! k) -> is_Some (m !! k).
Proof.
  induction names as [|name names IH]; intros m m' k; simpl.
  - by intros [= <-].
  - destruct (path_step params m name) as [m1| |] eqn:Hstep;
      simpl; try discriminate.
    intros Hloop Hk. eapply path_step_keys; eauto.
Qed.

Lemma path_loop_returns params base names : forall m,
  params !! "BASE_PATH" = Some base ->
  exists m', for_each (path_step params) m names = Ok m'.
Proof.
  induction names as [|name names IH]; intros m Hbase; simpl; [eauto|].
  unfold path_step at 1, getitem. rewrite Hbase.
  destruct (m !! name); simpl; eauto.
Qed.

(** With an absolute [BASE_PATH] the second loop joins it once to every
    path parameter present, however often the parameter is listed. *)
Lemma path_loop_lookup params base names :
  params !! "BASE_PATH" = Some base ->
  posixpath.isabs base = true ->
  forall m, exists m',
    for_each (path_step params) m names = Ok m'
    /\ forall k, m' !! k = if bool_decide (k ∈ names)
                           then posixpath.join base <$> m !! k
                           else m !! k.
Proof.
  intros Hbase Habs.
  induction names as [|name names IH]; intros m; simpl.
  - by eexists.
  - unfold path_step at 1, getitem. rewrite Hbase.
    set (m1 := match m !! name with
               | Some value => <[name := posixpath.join base value]> m
               | None => m
               end).
    assert (Hm1 : forall k, m1 !! k = if decide (name = k)
                                      then posixpath.join base <$> m !! k
                                      else m !! k).
    { intros k. subst m1. destruct (decide (name = k)) as [->|Hne].
      - destruct (m !! k) eqn:Hk; simpl; [by rewrite lookup_insert_eq|].
        by rewrite Hk.
      - destruct (m !! name); [by rewrite lookup_insert_ne|done]. }
    destruct (IH m1) as (m' & Hloop & Hm').
    exists m'. split.
    + destruct (m !! name); simpl; exact Hloop.
    + intros k. rewrite Hm', Hm1.
      destruct (decide (name = k)) as [->|Hne].
      * rewrite (bool_decide_eq_true_2 (k ∈ k :: names)) by left.
        destruct (bool_decide _); [|done].
        destruct (m !! k); simpl; [|done]. by rewrite join_join.
      * destruct (bool_decide (k ∈ names)) eqn:Hin.
        -- apply bool_decide_eq_true_1 in Hin.
           by rewrite bool_decide_eq_true_2 by (by right).
        -- apply bool_decide_eq_false_1 in Hin.
           rewrite bool_decide_eq_false_2; [done|].
           intros [?|?]%elem_of_cons; congruence.
Qed.

Lemma active_mode_getitem params calc_mode :
  active_mode catalog params = Some calc_mode ->
  (mode_name ← getitem params "CALCULATION_MODE";
   getitem (CALCULATION_MODE catalog) mode_name) = Ok calc_mode.
Proof.
  unfold active_mode, getitem.
  destruct (params !! "CALCULATION_MODE") as [mode_name|]; simpl; [|done].
  by intros ->.
Qed.

(** A recognised mode and a [BASE_PATH] are all the function needs to
    return. *)
Lemma prepare_returns params sections calc_mode :
  active_mode catalog params = Some calc_mode ->
  is_Some (params !! "BASE_PATH") ->
  exists new_params,
    (_prepare_config_parameters catalog params sections).1
    = Ok (new_params, sections).
Proof.
  intros Hmode [base Hbase]. unfold _prepare_config_parameters.
  rewrite (active_mode_getitem _ _ Hmode).
  edestruct (path_loop_returns params base (PATH_PARAMS catalog))
    as [m' ->]; [done|].
  destruct (classical_hazard_and_risk _ _); simpl; eauto.
Qed.
End PrepareFacts.

(** C5.  In classical mode with both the HAZARD and the RISK section,
    whatever mapping [_prepare_config_parameters] returns sends
    [COMPUTE_MEAN_HAZARD_CURVE] to ['true']; it does return whenever
    [BASE_PATH] is set, whatever the user's value for the key; and a
    non-empty user value is reported by a diagnostic. *)
Theorem classical_hazard_risk_forces_mean_curve {F} (catalog : Catalog F)
    (params : gmap string string) (sections : list string) :
  active_mode catalog params = Some "classical" ->
  "HAZARD" ∈ sections ->
  "RISK" ∈ sections ->
  let run := _prepare_config_parameters catalog params sections in
  (is_Some (params !! "BASE_PATH") ->
   exists new_params, run.1 = Ok (new_params, sections))
  /\ (forall new_params sections',
        run.1 = Ok (new_params, sections') ->
        new_params !! "COMPUTE_MEAN_HAZARD_CURVE" = Some "true")
  /\ (forall new_params sections',
        run.1 = Ok (new_params, sections') ->
        get_truthy params "COMPUTE_MEAN_HAZARD_CURVE" = true ->
        IgnoringComputeMeanHazardCurve ∈ run.2).
Proof.
  intros Hmode Hhazard Hrisk run. split; [|split].
  - intros Hbase. by eapply prepare_returns.
  - intros new_params sections'. subst run.
    unfold _prepare_config_parameters.
    rewrite (active_mode_getitem _ _ _ Hmode).
    destruct (for_each _ _ _) as [m| |]; simpl; try discriminate.
    unfold classical_hazard_and_risk.
    rewrite !bool_decide_eq_true_2 by done. simpl.
    intros [= <- _]. apply lookup_insert_eq.
  - intros new_params sections'. subst run.
    unfold _prepare_config_parameters.
    rewrite (active_mode_getitem _ _ _ Hmode).
    destruct (for_each _ _ _) as [m| |]; simpl; try discriminate.
    unfold classical_hazard_and_risk.
    rewrite !bool_decide_eq_true_2 by done. simpl.
    intros _ ->. apply elem_of_app. right. by left.
Qed.

Lemma classical_hazard_risk_forces_mean_curve_witness :
  exists new_params,
    (_prepare_config_parameters Samples.catalog Samples.classical_params
                                Samples.hazard_and_risk).1
    = Ok (new_params, Samples.hazard_and_risk)
    /\ new_params !! "COMPUTE_MEAN_HAZARD_CURVE" = Some "true".
Proof.
  destruct (classical_hazard_risk_forces_mean_curve
              Samples.catalog Samples.classical_params
              Samples.hazard_and_risk)
    as (Hreturns & Hforced & _).
  - vm_compute. reflexivity.
  - unfold Samples.hazard_and_risk. set_solver.
  - unfold Samples.hazard_and_risk. set_solver.
  - destruct Hreturns as [new_params Hrun].
    + vm_compute. eauto.
    + exists new_params. split; [exact Hrun|]. exact (Hforced _ _ Hrun).
Defined.

Section PrepareOutput.
Context {F : Type}.
Variable catalog : Catalog F.
Implicit Types (params m : gmap string string) (name k : string).

Lemma known_in_mode_spec calc_mode name :
  known_in_mode catalog calc_mode name = true
  <-> exists param, PARAMS catalog !! name = Some param
                    /\ calc_mode ∈ modes param.
Proof.
  unfold known_in_mode. destruct (PARAMS catalog !! name) as [param|].
  - rewrite bool_decide_eq_true. split; [eauto|]. by intros (? & [= <-] & ?).
  - split; [done|]. by intros (? & ? & ?).
Qed.

(** The mapping returned for a configuration with an absolute [BASE_PATH],
    key by key. *)
Lemma prepare_lookup params sections calc_mode base :
  active_mode catalog params = Some calc_mode ->
  params !! "BASE_PATH" = Some base ->
  posixpath.isabs base = true ->
  exists new_params,
    (_prepare_config_parameters catalog params sections).1
    = Ok (new_params, sections)
    /\ forall k,
         new_params !! k
         = if classical_hazard_and_risk calc_mode sections
              && bool_decide (k = "COMPUTE_MEAN_HAZARD_CURVE")
           then Some "true"
           else
             let kept := if known_in_mode catalog calc_mode k
                         then params !! k else None in
             if bool_decide (k ∈ PATH_PARAMS catalog)
             then posixpath.join base <$> kept else kept.
Proof.
  intros Hmode Hbase Habs. unfold _prepare_config_parameters.
  rewrite (active_mode_getitem _ _ _ Hmode).
  edestruct (path_loop_lookup params base (PATH_PARAMS catalog) Hbase Habs)
    as (m' & -> & Hm').
  destruct (classical_hazard_and_risk calc_mode sections); simpl.
  - eexists; split; [reflexivity|]. intros k.
    destruct (bool_decide (k = _)) eqn:Hk.
    + apply bool_decide_eq_true_1 in Hk as ->. apply lookup_insert_eq.
    + apply bool_decide_eq_false_1 in Hk.
      rewrite lookup_insert_ne by done.
      by rewrite Hm', filtered_lookup.
  - eexists; split; [reflexivity|]. intros k.
    by rewrite Hm', filtered_lookup.
Qed.
(** Without a [BASE_PATH] the second loop can only return if it meets no
    path parameter, and then it changes nothing. *)
Lemma path_loop_without_base params names : forall m m',
  params !! "BASE_PATH" = None ->
  for_each (path_step params) m names = Ok m' ->
  m' = m /\ forall name, name ∈ names -> m !! name = None.
Proof.
  induction names as [|name names IH]; intros m m' Hbase; simpl.
  - intros [= <-]. split; [done|]. by intros name Hin%elem_of_nil.
  - unfold path_step at 1, getitem. rewrite Hbase.
    destruct (m !! name) eqn:Hname; simpl; [discriminate|].
    intros Hloop. destruct (IH _ _ Hbase Hloop) as [-> Hrest].
    split; [done|]. intros name' [->|Hin]%elem_of_cons; auto.
Qed.

Lemma path_loop_no_paths params names : forall m,
  (forall name, name ∈ names -> m !! name = None) ->
  for_each (path_step params) m names = Ok m.
Proof.
  induction names as [|name names IH]; intros m Hnone; simpl; [done|].
  unfold path_step at 1. rewrite (Hnone name) by left. simpl.
  apply IH. intros name' Hin. apply Hnone. by right.
Qed.

(** The outcome of the function, once the mode is known. *)
Lemma prepare_outcome params sections calc_mode :
  active_mode catalog params = Some calc_mode ->
  (_prepare_config_parameters catalog params sections).1
  = (m ← for_each (path_step params)
           (foldl (filter_step catalog calc_mode) (∅, [])
                  (map_to_list params)).1
           (PATH_PARAMS catalog);
     Ok (if classical_hazard_and_risk calc_mode sections
         then <["COMPUTE_MEAN_HAZARD_CURVE" := "true"]> m else m,
         sections)).
Proof.
  intros Hmode. unfold _prepare_config_parameters.
  rewrite (active_mode_getitem _ _ _ Hmode).
  destruct (for_each _ _ _); simpl; try done.
  by destruct (classical_hazard_and_risk _ _).
Qed.
End PrepareOutput.

(** C6.  Given a recognised calculation mode, every key of the mapping
    [_prepare_config_parameters] returns has a catalog entry whose modes
    include that mode (the catalog being one that lists
    [COMPUTE_MEAN_HAZARD_CURVE] for the mode in which the function forces
    it); and the function returns whenever [BASE_PATH] is set. *)
Theorem prepared_keys_known_in_mode {F} (catalog : Catalog F)
    (params : gmap string string) (sections : list string)
    (calc_mode : string) :
  active_mode catalog params = Some calc_mode ->
  (classical_hazard_and_risk calc_mode sections = true ->
   known_in_mode catalog calc_mode "COMPUTE_MEAN_HAZARD_CURVE" = true) ->
  let run := _prepare_config_parameters catalog params sections in
  (is_Some (params !! "BASE_PATH") ->
   exists new_params, run.1 = Ok (new_params, sections))
  /\ (forall new_params sections' name,
        run.1 = Ok (new_params, sections') ->
        is_Some (new_params !! name) ->
        exists param, PARAMS catalog !! name = Some param
                      /\ calc_mode ∈ modes param).
Proof.
  intros Hmode Hforced run. split.
  - intros Hbase. by eapply prepare_returns.
  - intros new_params sections' name. subst run.
    unfold _prepare_config_parameters.
    rewrite (active_mode_getitem _ _ _ Hmode).
    destruct (for_each _ _ _) as [m| |] eqn:Hloop; simpl; try discriminate.
    assert (Hkept : is_Some (m !! name) ->
                    known_in_mode catalog calc_mode name = true).
    { intros Hname. eapply path_loop_keys in Hname; [|exact Hloop].
      rewrite filtered_lookup in Hname.
      destruct (known_in_mode catalog calc_mode name); [done|].
      by destruct Hname. }
    intros Hrun Hname. apply known_in_mode_spec.
    destruct (classical_hazard_and_risk _ _).
    + injection Hrun as <- _.
      destruct (decide (name = "COMPUTE_MEAN_HAZARD_CURVE")) as [->|Hne].
      * by apply Hforced.
      * rewrite lookup_insert_ne in Hname by done. by apply Hkept.
    + injection Hrun as <- _. by apply Hkept.
Qed.

Lemma prepared_keys_known_in_mode_witness :
  exists new_params,
    (_prepare_config_parameters Samples.catalog Samples.classical_params
                                Samples.hazard_and_risk).1
    = Ok (new_params, Samples.hazard_and_risk)
    /\ forall name,
         is_Some (new_params !! name) ->
         exists param, PARAMS Samples.catalog !! name = Some param
                       /\ "classical" ∈ modes param.
Proof.
  destruct (prepared_keys_known_in_mode Samples.catalog
              Samples.classical_params Samples.hazard_and_risk "classical")
    as (Hreturns & Hkeys).
  - vm_compute. reflexivity.
  - intros _. vm_compute. reflexivity.
  - destruct Hreturns as [new_params Hrun].
    + vm_compute. eauto.
    + exists new_params. split; [exact Hrun|].
      intros name. exact (Hkeys _ _ name Hrun).
Defined.

(** Resolution sets an absolute [BASE_PATH] whenever the working directory
    is absolute. *)
Lemma parse_config_file_base_path_absolute fuel os config_file params sections :
  posixpath.isabs (getcwd os) = true ->
  _parse_config_file fuel os config_file = Ok (params, sections) ->
  exists base, params !! "BASE_PATH" = Some base
               /\ posixpath.isabs base = true.
Proof.
  intros Hcwd. destruct fuel as [|fuel]; simpl; [discriminate|].
  destruct (path_exists os _); simpl; [|discriminate].
  destruct (for_each _ _ _) as [st| |]; simpl; try discriminate.
  intros [= <- _]. eexists. split; [apply lookup_insert_eq|].
  by apply abspath_isabs.
Qed.

Lemma parse_config_file_base_path_absolute_witness :
  exists base, Cases.overriding_params !! "BASE_PATH" = Some base
               /\ posixpath.isabs base = true.
Proof.
  apply (parse_config_file_base_path_absolute 2 Samples.overriding
           "config.gem" Cases.overriding_params Cases.overriding_sections).
  - reflexivity.
  - vm_compute. reflexivity.
Defined.

(** Preparation repeated.  Take a mapping whose [BASE_PATH], if it has one,
    is absolute, and a catalog that keeps [CALCULATION_MODE] and [BASE_PATH]
    in the active mode and lists neither [CALCULATION_MODE] nor
    [COMPUTE_MEAN_HAZARD_CURVE] among the path parameters.  If
    [_prepare_config_parameters] returns for it, then applied to its own
    output with the same sections it returns that output again: a path
    joined to an absolute base is absolute, and joining leaves it alone. *)
Lemma prepare_twice_with_absolute_base {F} (catalog : Catalog F)
    (params new_params : gmap string string) (sections sections' : list string)
    (calc_mode : string) :
  active_mode catalog params = Some calc_mode ->
  (forall base, params !! "BASE_PATH" = Some base ->
                posixpath.isabs base = true) ->
  known_in_mode catalog calc_mode "CALCULATION_MODE" = true ->
  known_in_mode catalog calc_mode "BASE_PATH" = true ->
  "CALCULATION_MODE" ∉ PATH_PARAMS catalog ->
  "COMPUTE_MEAN_HAZARD_CURVE" ∉ PATH_PARAMS catalog ->
  (_prepare_config_parameters catalog params sections).1
  = Ok (new_params, sections') ->
  (_prepare_config_parameters catalog new_params sections').1
  = Ok (new_params, sections').
Proof.
  intros Hmode Habs Hkeep_mode Hkeep_base Hmode_path Hmean_path Hrun.
  destruct (params !! "BASE_PATH") as [base|] eqn:Hbase.
  - (* the base path is there, and absolute *)
    specialize (Habs base eq_refl).
    destruct (prepare_lookup catalog params sections calc_mode base
                Hmode Hbase Habs) as (out & Hout & Hlookup).
    rewrite Hout in Hrun. injection Hrun as <- <-.
    assert (Hmode' : active_mode catalog out = Some calc_mode).
    { unfold active_mode in *. rewrite Hlookup. simpl.
      rewrite andb_false_r, Hkeep_mode.
      by rewrite bool_decide_eq_false_2 by done. }
    assert (Hbase' : out !! "BASE_PATH" = Some base).
    { rewrite Hlookup. simpl. rewrite andb_false_r, Hkeep_base, Hbase.
      destruct (bool_decide _); simpl; [|done].
      by rewrite join_absolute. }
    destruct (prepare_lookup catalog out sections calc_mode base
                Hmode' Hbase' Habs) as (again & Hrun' & Hlookup').
    rewrite Hrun'. do 2 f_equal. apply map_eq. intros k.
    rewrite Hlookup'.
    destruct (classical_hazard_and_risk calc_mode sections
              && bool_decide (k = "COMPUTE_MEAN_HAZARD_CURVE")) eqn:Hforced.
    { by rewrite Hlookup, Hforced. }
    simpl. rewrite (Hlookup k), Hforced. simpl.
    destruct (known_in_mode catalog calc_mode k); simpl.
    + destruct (bool_decide (k ∈ PATH_PARAMS catalog)); [|done].
      destruct (params !! k); simpl; [|done]. by rewrite join_join.
    + by destruct (bool_decide (k ∈ PATH_PARAMS catalog)).
  - (* no base path: the first run met no path parameter *)
    rewrite (prepare_outcome _ _ _ _ Hmode) in Hrun.
    destruct (for_each _ _ _) as [m| |] eqn:Hloop; simpl in Hrun;
      try discriminate.
    injection Hrun as <- <-.
    apply path_loop_without_base in Hloop as [-> Hnone]; [|done].
    set (kept := (foldl (filter_step catalog calc_mode) (∅, [])
                        (map_to_list params)).1) in *.
    remember (classical_hazard_and_risk calc_mode sections) as forced
      eqn:Hforced.
    set (out := if forced then <["COMPUTE_MEAN_HAZARD_CURVE" := "true"]> kept
                else kept).
    assert (Hkept : forall k, kept !! k = if known_in_mode catalog calc_mode k
                                          then params !! k else None).
    { intros k. subst kept. apply filtered_lookup. }
    assert (Hout : forall k, k ≠ "COMPUTE_MEAN_HAZARD_CURVE" ->
                             out !! k = kept !! k).
    { intros k Hk. subst out. destruct forced; [|done].
      by rewrite lookup_insert_ne. }
    assert (Hmode' : active_mode catalog out = Some calc_mode).
    { unfold active_mode in *. rewrite Hout by done.
      by rewrite Hkept, Hkeep_mode. }
    assert (Hagain : forall k, k ≠ "COMPUTE_MEAN_HAZARD_CURVE" ->
              (foldl (filter_step catalog calc_mode) (∅, [])
                     (map_to_list out)).1 !! k = kept !! k).
    { intros k Hk. rewrite filtered_lookup, Hout, Hkept by done.
      by destruct (known_in_mode catalog calc_mode k). }
    rewrite (prepare_outcome _ _ _ _ Hmode'), <- Hforced.
    rewrite path_loop_no_paths.
    + simpl. do 2 f_equal. apply map_eq. intros k.
      destruct (decide (k = "COMPUTE_MEAN_HAZARD_CURVE")) as [->|Hk].
      * subst out. destruct forced; [by rewrite !lookup_insert_eq|].
        rewrite filtered_lookup, Hkept.
        by destruct (known_in_mode catalog calc_mode
                                   "COMPUTE_MEAN_HAZARD_CURVE").
      * rewrite (Hout k Hk), <- (Hagain k Hk).
        destruct forced; [by rewrite lookup_insert_ne|done].
    + intros name Hin.
      assert (Hname : name ≠ "COMPUTE_MEAN_HAZARD_CURVE") by by intros ->.
      rewrite (Hagain name Hname). by apply Hnone.
Qed.

(** The mapping [_parse_config_file] returns has the directory of the root
    file under [BASE_PATH]. *)
Lemma parse_sets_base_path fuel os config_file params sections :
  _parse_config_file fuel os config_file = Ok (params, sections) ->
  params !! "BASE_PATH" = Some (base_path_of os config_file).
Proof.
  destruct fuel as [|fuel]; simpl; [discriminate|].
  destruct (path_exists os _); simpl; [|discriminate].
  destruct (for_each _ _ _) as [st| |]; simpl; try discriminate.
  intros [= <- _]. apply lookup_insert_eq.
Qed.

(** C9.  [_prepare_config_parameters] is idempotent on the raw mapping and
    sections it is given, which are those [_parse_config_file] returns (the
    working directory being absolute, as [os.getcwd()] is).  The catalog
    keeps [CALCULATION_MODE] and [BASE_PATH] in the active mode and lists
    neither [CALCULATION_MODE] nor [COMPUTE_MEAN_HAZARD_CURVE] among the
    path parameters.  If the function returns, then applied to its own
    output with the same sections it returns that output again. *)
Theorem prepare_config_parameters_idempotent {F} (catalog : Catalog F)
    (fuel : nat) (os : OS) (config_file : string)
    (raw new_params : gmap string string)
    (raw_sections sections' : list string) (calc_mode : string) :
  posixpath.isabs (getcwd os) = true ->
  _parse_config_file fuel os config_file = Ok (raw, raw_sections) ->
  active_mode catalog raw = Some calc_mode ->
  known_in_mode catalog calc_mode "CALCULATION_MODE" = true ->
  known_in_mode catalog calc_mode "BASE_PATH" = true ->
  "CALCULATION_MODE" ∉ PATH_PARAMS catalog ->
  "COMPUTE_MEAN_HAZARD_CURVE" ∉ PATH_PARAMS catalog ->
  (_prepare_config_parameters catalog raw raw_sections).1
  = Ok (new_params, sections') ->
  (_prepare_config_parameters catalog new_params sections').1
  = Ok (new_params, sections').
Proof.
  intros Hcwd Hparse Hmode Hkeep_mode Hkeep_base Hmode_path Hmean_path Hrun.
  apply parse_sets_base_path in Hparse.
  apply (prepare_twice_with_absolute_base catalog raw new_params raw_sections
           sections' calc_mode); try done.
  intros base Hbase. rewrite Hparse in Hbase. injection Hbase as <-.
  unfold base_path_of. by apply abspath_isabs.
Qed.

Lemma prepare_config_parameters_idempotent_witness :
  _parse_config_file 1 Cases.risk_job "config.gem"
  = Ok (Cases.risk_job_params, Cases.risk_job_sections)
  /\ (_prepare_config_parameters Samples.catalog Cases.risk_job_params
                                 Cases.risk_job_sections).1
     = Ok (Cases.prepared_classical, Cases.risk_job_sections)
  /\ Cases.prepared_classical !! "EXPOSURE" = Some "/jobs/exposure.xml"
  /\ (_prepare_config_parameters Samples.catalog Cases.prepared_classical
                                 Cases.risk_job_sections).1
     = Ok (Cases.prepared_classical, Cases.risk_job_sections).
Proof.
  assert (Hparse : _parse_config_file 1 Cases.risk_job "config.gem"
                   = Ok (Cases.risk_job_params, Cases.risk_job_sections))
    by (vm_compute; reflexivity).
  assert (Hrun : (_prepare_config_parameters Samples.catalog
                    Cases.risk_job_params Cases.risk_job_sections).1
                 = Ok (Cases.prepared_classical, Cases.risk_job_sections))
    by (vm_compute; reflexivity).
  split; [exact Hparse|]. split; [exact Hrun|].
  split; [vm_compute; reflexivity|].
  apply (prepare_config_parameters_idempotent Samples.catalog 1
           Cases.risk_job "config.gem" Cases.risk_job_params
           Cases.prepared_classical Cases.risk_job_sections
           Cases.risk_job_sections "classical").
  - vm_compute. reflexivity.
  - exact Hparse.
  - vm_compute. reflexivity.
  - vm_compute. reflexivity.
  - vm_compute. reflexivity.
  - apply (bool_decide_eq_false_1
             ("CALCULATION_MODE" ∈ PATH_PARAMS Samples.catalog)).
    vm_compute. reflexivity.
  - apply (bool_decide_eq_false_1
             ("COMPUTE_MEAN_HAZARD_CURVE" ∈ PATH_PARAMS Samples.catalog)).
    vm_compute. reflexivity.
  - exact Hrun.
Defined.

(** ** Site selection *)

(** C8.  With [SITES] set to the two lat,lon pairs, an empty site cache and
    the exposure policy not selected, and a catalog whose [SITES] transform
    reads the text as its four floats, [sites_to_compute] returns the two
    sites in input order, longitude first, and caches them. *)
Theorem sites_parameter_yields_lon_lat_sites {F} (catalog : Catalog F)
    (shapes : Shapes F) (float : string -> F) (p : CalculationProxy F)
    (transform : string -> Res (JobVal F)) :
  params p !! jobconf.SITES = Some "37.5,-122.2 37.5,-122.1" ->
  sites p = [] ->
  bool_decide (jobconf.RISK_SECTION ∈ sections p)
  && truthy (has p jobconf.COMPUTE_HAZARD_AT_ASSETS) = false ->
  PARAMS catalog !! jobconf.SITES ≫= to_job = Some transform ->
  transform "37.5,-122.2 37.5,-122.1"
  = Ok (VFloats (float <$> ["37.5"; "-122.2"; "37.5"; "-122.1"])) ->
  let expected := [mkSite (VFloat (float "-122.2")) (VFloat (float "37.5"));
                   mkSite (VFloat (float "-122.1")) (VFloat (float "37.5"))] in
  sites_to_compute catalog shapes p = (Ok expected, set_sites expected p).
Proof.
  intros Hsites Hcache Hexposure Hcatalog Htransform expected.
  unfold sites_to_compute. rewrite Hcache, Hexposure. simpl.
  unfold has at 1. rewrite Hsites. simpl.
  unfold _extract_coords, proxy_getitem. rewrite Hcatalog, Hsites.
  rewrite Htransform. reflexivity.
Qed.

Lemma sites_parameter_yields_lon_lat_sites_witness :
  (sites_to_compute Samples.catalog Samples.shapes Samples.sites_proxy).1
  = Ok [mkSite (VFloat "-122.2") (VFloat "37.5");
        mkSite (VFloat "-122.1") (VFloat "37.5")].
Proof.
  rewrite (sites_parameter_yields_lon_lat_sites Samples.catalog Samples.shapes
             (fun literal => literal) Samples.sites_proxy
             Samples.text_to_floats);
    reflexivity.
Defined.

(** C10.  A parameter mapped to the empty string counts as absent: [has]
    is falsy for it; [region] is [None] when [REGION_VERTEX] is empty; with
    an empty [COMPUTE_HAZARD_AT_ASSETS_LOCATIONS], [sites_to_compute] goes
    on to the explicit site list or, failing that, the region grid; and
    with an empty [SITES] (the exposure policy not selected) it goes on to
    the region grid. *)
Theorem empty_parameter_counts_as_absent {F} (catalog : Catalog F)
    (shapes : Shapes F) (p : CalculationProxy F) :
  (forall name, params p !! name = Some "" -> truthy (has p name) = false)
  /\ (params p !! "REGION_VERTEX" = Some "" ->
      region catalog shapes p = Ok None)
  /\ (sites p = [] ->
      params p !! jobconf.COMPUTE_HAZARD_AT_ASSETS = Some "" ->
      sites_to_compute catalog shapes p
      = cache_sites p
          (if truthy (has p jobconf.SITES)
           then sites_of_coords <$> _extract_coords catalog p jobconf.SITES
           else _sites_for_region catalog shapes p))
  /\ (sites p = [] ->
      params p !! jobconf.SITES = Some "" ->
      bool_decide (jobconf.RISK_SECTION ∈ sections p)
      && truthy (has p jobconf.COMPUTE_HAZARD_AT_ASSETS) = false ->
      sites_to_compute catalog shapes p
      = cache_sites p (_sites_for_region catalog shapes p)).
Proof.
  assert (Hhas : forall name,
             params p !! name = Some "" -> truthy (has p name) = false).
  { intros name Hname. unfold has. by rewrite Hname. }
  split; [exact Hhas|]. split; [|split].
  - intros Hregion. unfold region. by rewrite (Hhas _ Hregion).
  - intros Hcache Hflag. unfold sites_to_compute.
    rewrite Hcache, (Hhas _ Hflag), andb_false_r. simpl.
    by destruct (truthy (has p jobconf.SITES)).
  - intros Hcache Hsites Hexposure. unfold sites_to_compute.
    by rewrite Hcache, Hexposure, (Hhas _ Hsites).
Qed.

Lemma empty_parameter_counts_as_absent_witness :
  truthy (has Samples.blank_proxy "REGION_VERTEX") = false
  /\ region Samples.catalog Samples.shapes Samples.blank_proxy = Ok None
  /\ sites_to_compute Samples.catalog Samples.shapes Samples.blank_proxy
     = cache_sites Samples.blank_proxy
         (_sites_for_region Samples.catalog Samples.shapes Samples.blank_proxy).
Proof.
  destruct (empty_parameter_counts_as_absent Samples.catalog Samples.shapes
              Samples.blank_proxy) as (Hhas & Hregion & _ & Hsites).
  split; [apply Hhas; reflexivity|].
  split; [apply Hregion; reflexivity|].
  apply Hsites; reflexivity.
Defined.

(** ** The executor's status writes *)




(** In general, what the handler does not catch passes through it: the
    executor ends as the statements under [try] did, with the calculation
    object and the table as they left them. *)
Lemma uncaught_outcome_passes_through (Ext : Type) (try_body : Step Ext)
    (calculation : OqCalculation) (w w' : World Ext) (outcome : Res unit) :
  try_body w = (outcome, w') ->
  returned_or_caught outcome = false ->
  worker_process Ext try_body calculation w = (outcome, calculation, w').
Proof.
  intros Hbody Hpassed. unfold worker_process. rewrite Hbody.
  destruct w' as [db ext].
  destruct outcome as [[]|ex|]; simpl in Hpassed; try discriminate.
  - by rewrite Hpassed.
  - done.
Qed.




(** * Further properties of the engine *)

(** ** More on configuration resolution *)

Lemma for_each_invariant {A S} (P : S -> Prop) (body : S -> A -> Res S) xs :
  (forall s a s', P s -> body s a = Ok s' -> P s') ->
  forall s s', P s -> for_each body s xs = Ok s' -> P s'.
Proof.
  intros Hbody. induction xs as [|x xs IH]; intros s s' Hs; simpl.
  - by intros [= <-].
  - destruct (body s x) as [s1| |] eqn:Hstep; simpl; try discriminate.
    apply IH. eauto.
Qed.

Lemma upper_ascii_idempotent c : upper_ascii (upper_ascii c) = upper_ascii c.
Proof. by destruct c as [[] [] [] [] [] [] [] []]. Qed.

Lemma upper_idempotent s : upper (upper s) = upper s.
Proof.
  induction s as [|c s IH]; simpl; [done|].
  by rewrite upper_ascii_idempotent, IH.
Qed.

(** Every key of a resolved configuration is in upper case: the keys of
    the files are upper-cased as they are read, whatever their case in the
    file, and [BASE_PATH] is. *)
Theorem parse_config_file_keys_upper fuel os : forall config_file params sections,
  _parse_config_file fuel os config_file = Ok (params, sections) ->
  forall key, is_Some (params !! key) -> upper key = key.
Proof.
  induction fuel as [|fuel IH]; intros config_file params sections; simpl;
    [discriminate|].
  destruct (path_exists os _); simpl; [|discriminate].
  destruct (for_each _ _ _) as [st| |] eqn:Hloop; simpl; try discriminate.
  intros [= <- _] key.
  set (upper_keys := fun st : ParseLocals =>
                      forall k, is_Some (l_params st !! k) -> upper k = k).
  assert (Hst : upper_keys st).
  { revert Hloop. apply (for_each_invariant upper_keys).
    - intros st1 sec st2 Hst1. unfold parse_section.
      apply (for_each_invariant upper_keys); [|exact Hst1].
      intros st3 item st4 Hst3. unfold parse_item.
      destruct (RE_INCLUDE_match _).
      + destruct (_parse_config_file fuel os _) as [[sub secs]| |] eqn:Hsub;
          simpl; try discriminate.
        intros [= <-] k. simpl. rewrite lookup_union_is_Some.
        intros [Hk|Hk]; [by eapply IH|by apply Hst3].
      + intros [= <-] k. simpl.
        destruct (decide (upper item.1 = k)) as [<-|Hne].
        * intros _. apply upper_idempotent.
        * rewrite lookup_insert_ne by done. apply Hst3.
    - intros k. simpl. rewrite lookup_empty. by intros [? ?]. }
  destruct (decide ("BASE_PATH" = key)) as [<-|Hne]; [done|].
  rewrite lookup_insert_ne by done. apply Hst.
Qed.

Lemma parse_config_file_keys_upper_witness :
  is_Some (Cases.overriding_params !! "MINIMUM_MAGNITUDE")
  /\ upper "MINIMUM_MAGNITUDE" = "MINIMUM_MAGNITUDE".
Proof.
  assert (Hkey : is_Some (Cases.overriding_params !! "MINIMUM_MAGNITUDE")).
  { vm_compute. eauto. }
  split; [exact Hkey|].
  apply (parse_config_file_keys_upper 2 Samples.overriding "config.gem"
           Cases.overriding_params Cases.overriding_sections).
  - vm_compute. reflexivity.
  - exact Hkey.
Defined.

(** There is no cycle detection: a file whose first parameter line is an
    include directive leading back to the file itself is resolved within no
    recursion budget, whatever else the file holds. *)
Theorem self_include_never_resolves os file section key value items rest :
  files os !! file
  = Some (ConfigFile ((section, (key, value) :: items) :: rest)) ->
  RE_INCLUDE_match (upper key) = true ->
  posixpath.abspath (getcwd os)
    (posixpath.join (posixpath.dirname file) value) = file ->
  forall fuel config_file,
    posixpath.abspath (getcwd os) config_file = file ->
    _parse_config_file fuel os config_file = Diverges.
Proof.
  intros Hfile Hinclude Hback.
  induction fuel as [|fuel IH]; intros config_file Habs; simpl; [done|].
  rewrite Habs. unfold path_exists, parser_read. rewrite Hfile.
  rewrite bool_decide_eq_true_2 by eauto. simpl.
  unfold parse_section at 1. simpl. unfold parse_item at 1. simpl.
  rewrite Hinclude. by rewrite (IH _ Hback).
Qed.

Lemma self_include_never_resolves_witness :
  _parse_config_file 50 Cases.self_including "loop.gem" = Diverges.
Proof.
  apply (self_include_never_resolves Cases.self_including "/jobs/loop.gem"
           "general" "loop_include" "loop.gem"
           [("calculation_mode", "Classical")] []);
    reflexivity.
Defined.

(** ** More on parameter preparation *)

Section PrepareFailures.
Context {F : Type}.
Variable catalog : Catalog F.
Implicit Types (params m : gmap string string) (name : string).
Local Arguments path_step : simpl never.

Lemma path_loop_raises params names : forall m name,
  params !! "BASE_PATH" = None ->
  name ∈ names ->
  is_Some (m !! name) ->
  for_each (path_step params) m names = Raise (mkExc KeyError ["BASE_PATH"]).
Proof.
  induction names as [|first names IH]; intros m name Hbase Hin Hname.
  - by apply elem_of_nil in Hin.
  - simpl. unfold path_step at 1, getitem. rewrite Hbase.
    destruct (m !! first) eqn:Hfirst; simpl; [done|].
    apply elem_of_cons in Hin as [->|Hin].
    + rewrite Hfirst in Hname. by destruct Hname.
    + by eapply IH.
Qed.

Lemma path_loop_outcome params names m :
  for_each (path_step params) m names ≠ Diverges.
Proof.
  revert m. induction names as [|first names IH]; intros m; simpl; [done|].
  unfold path_step at 1, getitem.
  destruct (m !! first); simpl; [|apply IH].
  destruct (params !! "BASE_PATH"); simpl; [apply IH|done].
Qed.
End PrepareFailures.

(** [_prepare_config_parameters] always ends, and it raises in three cases
    only, each time a [KeyError]: no [CALCULATION_MODE] entry; a mode name
    the mode table does not have; or no [BASE_PATH] while a path parameter
    survives the filter. *)
Theorem prepare_config_parameters_failures {F} (catalog : Catalog F)
    (params : gmap string string) (sections : list string) (ex : Exc) :
  (_prepare_config_parameters catalog params sections).1 ≠ Diverges
  /\ ((_prepare_config_parameters catalog params sections).1 = Raise ex
      <-> (params !! "CALCULATION_MODE" = None
           /\ ex = mkExc KeyError ["CALCULATION_MODE"])
          \/ (exists mode_name,
                params !! "CALCULATION_MODE" = Some mode_name
                /\ CALCULATION_MODE catalog !! mode_name = None
                /\ ex = mkExc KeyError [mode_name])
          \/ (exists calc_mode name,
                active_mode catalog params = Some calc_mode
                /\ params !! "BASE_PATH" = None
                /\ name ∈ PATH_PARAMS catalog
                /\ known_in_mode catalog calc_mode name = true
                /\ is_Some (params !! name)
                /\ ex = mkExc KeyError ["BASE_PATH"])).
Proof.
  unfold _prepare_config_parameters, active_mode, getitem.
  destruct (params !! "CALCULATION_MODE") as [mode_name|] eqn:Hname; simpl;
    [|split; [done|]; split;
      [intros [= <-]; by left
      |intros [[_ ->]|[(? & ? & _)|(? & ? & ? & _)]]; done]].
  destruct (CALCULATION_MODE catalog !! mode_name) as [calc_mode|] eqn:Hmode;
    simpl;
    [|split; [done|]; split;
      [intros [= <-]; right; left; eauto
      |intros [[? _]|[(? & [= <-] & _ & ->)|(? & ? & ? & _)]]; done]].
  set (kept := (foldl (filter_step catalog calc_mode) (∅, [])
                      (map_to_list params)).1).
  pose proof (path_loop_outcome params (PATH_PARAMS catalog) kept) as Hends.
  destruct (for_each (path_step params) kept (PATH_PARAMS catalog))
    as [m|ex'|] eqn:Hloop; [| |done].
  - (* the path loop returned *)
    split; [by destruct (classical_hazard_and_risk _ _)|]. split.
    { by destruct (classical_hazard_and_risk _ _). }
    intros [[? _]|[(? & [= <-] & ? & _)|(cm & name & [= <-] & Hbase & Hin
                                         & Hknown & Hsome & _)]];
      [done|congruence|].
    rewrite (path_loop_raises params _ kept name) in Hloop; try done.
    subst kept. by rewrite filtered_lookup, Hknown.
  - (* the path loop raised *)
    split; [done|]. simpl.
    destruct (params !! "BASE_PATH") as [base|] eqn:Hbase.
    { destruct (path_loop_returns params base (PATH_PARAMS catalog) kept Hbase)
        as [m Hm]. congruence. }
    assert (Hpresent : exists name, name ∈ PATH_PARAMS catalog
                                    /\ is_Some (kept !! name)).
    { destruct (decide (Exists (fun name => is_Some (kept !! name))
                               (PATH_PARAMS catalog))) as [Hex|Hnone].
      - apply Exists_exists in Hex. naive_solver.
      - rewrite (path_loop_no_paths params) in Hloop; [done|].
        intros name Hin. apply eq_None_not_Some. intros Hsome.
        apply Hnone, Exists_exists. eauto. }
    destruct Hpresent as (name & Hin & Hsome).
    rewrite (path_loop_raises params _ kept name) in Hloop by done.
    injection Hloop as <-.
    split.
    + intros [= <-]. right. right. exists calc_mode, name.
      subst kept. rewrite filtered_lookup in Hsome.
      destruct (known_in_mode catalog calc_mode name) eqn:Hknown;
        [|by destruct Hsome].
      by repeat split.
    + intros [[? _]|[(? & [= <-] & ? & _)|(? & ? & _ & _ & _ & _ & _ & ->)]];
        [done|congruence|done].
Qed.

(** With an absolute [BASE_PATH], every path parameter of the prepared
    mapping is the join of [BASE_PATH] and the value given for it, hence an
    absolute path; every other surviving parameter keeps its value. *)
Theorem prepared_paths_are_absolute {F} (catalog : Catalog F)
    (params new_params : gmap string string) (sections sections' : list string)
    (calc_mode base name value : string) :
  active_mode catalog params = Some calc_mode ->
  params !! "BASE_PATH" = Some base ->
  posixpath.isabs base = true ->
  (_prepare_config_parameters catalog params sections).1
  = Ok (new_params, sections') ->
  name ≠ "COMPUTE_MEAN_HAZARD_CURVE" ->
  new_params !! name = Some value ->
  exists given,
    params !! name = Some given
    /\ if bool_decide (name ∈ PATH_PARAMS catalog)
       then value = posixpath.join base given
            /\ posixpath.isabs value = true
       else value = given.
Proof.
  intros Hmode Hbase Habs Hrun Hname Hvalue.
  destruct (prepare_lookup catalog params sections calc_mode base
              Hmode Hbase Habs) as (out & Hout & Hlookup).
  rewrite Hout in Hrun. injection Hrun as <- <-.
  rewrite Hlookup in Hvalue.
  rewrite (bool_decide_eq_false_2 (name = _)), andb_false_r in Hvalue by done.
  simpl in Hvalue.
  destruct (known_in_mode catalog calc_mode name);
    [|by destruct (bool_decide _)].
  destruct (params !! name) as [given|]; [|by destruct (bool_decide _)].
  exists given. split; [done|].
  destruct (bool_decide _); simpl in Hvalue; injection Hvalue as <-; [|done].
  split; [done|]. by apply join_isabs.
Qed.

Lemma prepared_paths_are_absolute_witness :
  exists given,
    Samples.classical_params !! "EXPOSURE" = Some given
    /\ "/jobs/exposure.xml" = posixpath.join "/jobs" given
    /\ posixpath.isabs "/jobs/exposure.xml" = true.
Proof.
  apply (prepared_paths_are_absolute Samples.catalog
           Samples.classical_params Cases.prepared_classical
           Samples.hazard_and_risk Samples.hazard_and_risk
           "classical" "/jobs" "EXPOSURE" "/jobs/exposure.xml").
  - vm_compute. reflexivity.
  - vm_compute. reflexivity.
  - reflexivity.
  - vm_compute. reflexivity.
  - discriminate.
  - vm_compute. reflexivity.
Defined.

Section Diagnostics.
Context {F : Type}.
Variable catalog : Catalog F.
Implicit Types (params : gmap string string) (name : string).
Local Arguments filter_step : simpl never.

(** What one parameter makes the first loop print. *)
Lemma filter_step_snd calc_mode acc name value :
  (filter_step catalog calc_mode acc (name, value)).2
  = acc.2 ++ match PARAMS catalog !! name with
             | None => [IgnoringUnknownParameter name]
             | Some param =>
                 if bool_decide (calc_mode ∈ modes param) then []
                 else [IgnoringOutsideMode name calc_mode (modes param)]
             end.
Proof.
  unfold filter_step. destruct (PARAMS catalog !! name) as [param|]; [|done].
  destruct (bool_decide _); simpl; [by rewrite app_nil_r|done].
Qed.

Lemma filter_loop_diagnostics calc_mode (items : list (string * string)) d :
  forall acc,
  d ∈ (foldl (filter_step catalog calc_mode) acc items).2
  <-> d ∈ acc.2
      \/ exists name, name ∈ items.*1
         /\ match PARAMS catalog !! name with
            | None => d = IgnoringUnknownParameter name
            | Some param =>
                (calc_mode ∉ modes param)
                /\ d = IgnoringOutsideMode name calc_mode (modes param)
            end.
Proof.
  induction items as [|[name value] items IH]; intros acc; simpl.
  - split; [by left|]. intros [?|(? & []%elem_of_nil & _)]. done.
  - rewrite IH, filter_step_snd, elem_of_app. split.
    + intros [[Hd|Hd]|(name' & Hin & Hd)].
      * by left.
      * right. exists name. split; [left|].
        destruct (PARAMS catalog !! name) as [param|].
        -- destruct (bool_decide (calc_mode ∈ modes param)) eqn:Hmode.
           ++ by apply elem_of_nil in Hd.
           ++ apply bool_decide_eq_false_1 in Hmode.
              by apply list_elem_of_singleton in Hd.
        -- by apply list_elem_of_singleton in Hd.
      * right. exists name'. split; [by right|done].
    + intros [Hd|(name' & Hin & Hd)]; [by left; left|].
      apply elem_of_cons in Hin as [->|Hin].
      * left. right.
        destruct (PARAMS catalog !! name) as [param|].
        -- destruct Hd as [Hmode ->].
           rewrite bool_decide_eq_false_2 by done.
           by apply list_elem_of_singleton.
        -- subst d. by apply list_elem_of_singleton.
      * right. eauto.
Qed.
End Diagnostics.

(** Nothing is dropped or overridden silently.  When the function returns,
    its diagnostics are exactly: one naming each given parameter the
    catalog does not know; one naming each given parameter whose modes
    exclude the active mode, with those modes; and, in classical mode with
    hazard and risk, the override notice when the user gave a non-empty
    [COMPUTE_MEAN_HAZARD_CURVE]. *)
Theorem prepare_diagnostics_name_the_dropped {F} (catalog : Catalog F)
    (params new_params : gmap string string) (sections sections' : list string)
    (calc_mode : string) (d : Diagnostic) :
  active_mode catalog params = Some calc_mode ->
  (_prepare_config_parameters catalog params sections).1
  = Ok (new_params, sections') ->
  d ∈ (_prepare_config_parameters catalog params sections).2
  <-> match d with
      | IgnoringUnknownParameter name =>
          is_Some (params !! name) /\ PARAMS catalog !! name = None
      | IgnoringOutsideMode name mode valid_modes =>
          is_Some (params !! name) /\ mode = calc_mode
          /\ exists param, PARAMS catalog !! name = Some param
                           /\ valid_modes = modes param
                           /\ calc_mode ∉ modes param
      | IgnoringComputeMeanHazardCurve =>
          classical_hazard_and_risk calc_mode sections = true
          /\ get_truthy params "COMPUTE_MEAN_HAZARD_CURVE" = true
      end.
Proof.
  intros Hmode. unfold _prepare_config_parameters.
  rewrite (active_mode_getitem _ _ _ Hmode).
  destruct (for_each _ _ _) as [m| |]; simpl; try discriminate.
  intros _.
  assert (Hkeys : forall name,
            name ∈ (map_to_list params).*1 <-> is_Some (params !! name)).
  { intros name. rewrite list_elem_of_fmap. split.
    - intros ([k v] & -> & Hin%elem_of_map_to_list). by eexists.
    - intros [v Hv]. exists (name, v). by rewrite elem_of_map_to_list. }
  assert (Hloop := filter_loop_diagnostics catalog calc_mode
                     (map_to_list params) d (∅, [])).
  simpl in Hloop.
  assert (Hfirst : d ∈ (foldl (filter_step catalog calc_mode) (∅, [])
                              (map_to_list params)).2
          <-> match d with
              | IgnoringUnknownParameter name =>
                  is_Some (params !! name) /\ PARAMS catalog !! name = None
              | IgnoringOutsideMode name mode valid_modes =>
                  is_Some (params !! name) /\ mode = calc_mode
                  /\ exists param, PARAMS catalog !! name = Some param
                                   /\ valid_modes = modes param
                                   /\ calc_mode ∉ modes param
              | IgnoringComputeMeanHazardCurve => False
              end).
  { rewrite Hloop. split.
    - intros [[]%elem_of_nil|(name & Hin%Hkeys & Hd)].
      destruct (PARAMS catalog !! name) as [param|] eqn:Hparam.
      + destruct Hd as [Hout ->]. rewrite Hparam. naive_solver.
      + subst d. by rewrite Hparam.
    - intros Hd. right. destruct d as [name|name mode valid| ]; [| |done].
      + destruct Hd as [Hsome Hnone]. exists name. rewrite Hkeys, Hnone. done.
      + destruct Hd as (Hsome & -> & param & Hparam & -> & Hout).
        exists name. rewrite Hkeys, Hparam. done. }
  destruct (classical_hazard_and_risk calc_mode sections); simpl.
  - rewrite elem_of_app, Hfirst.
    destruct (get_truthy params "COMPUTE_MEAN_HAZARD_CURVE").
    + rewrite list_elem_of_singleton. destruct d; naive_solver.
    + rewrite elem_of_nil. destruct d; naive_solver.
  - rewrite Hfirst. destruct d; naive_solver.
Qed.

Lemma prepare_diagnostics_name_the_dropped_witness :
  IgnoringUnknownParameter "NOT_A_PARAMETER"
  ∈ (_prepare_config_parameters Samples.catalog Samples.classical_params
                                Samples.hazard_and_risk).2.
Proof.
  apply (prepare_diagnostics_name_the_dropped Samples.catalog
           Samples.classical_params Cases.prepared_classical
           Samples.hazard_and_risk Samples.hazard_and_risk "classical"
           (IgnoringUnknownParameter "NOT_A_PARAMETER")).
  - vm_compute. reflexivity.
  - vm_compute. reflexivity.
  - split; vm_compute; eauto.
Defined.

(** ** More on site selection *)

Lemma slice_even_lookup {A} (i : nat) : forall xs : list A,
  slice_even xs !! i = xs !! (2 * i).
Proof.
  induction i as [|i IH]; intros [|x [|y xs]]; try done.
  replace (2 * S i) with (S (S (2 * i))) by lia. simpl. apply IH.
Qed.

Lemma slice_odd_lookup {A} (i : nat) (xs : list A) :
  slice_odd xs !! i = xs !! (2 * i + 1).
Proof.
  unfold slice_odd. rewrite slice_even_lookup.
  replace (2 * i + 1) with (S (2 * i)) by lia. by destruct xs.
Qed.

(** [_extract_coords] pairs the flat list two by two, second element of
    each pair first (the text gives latitude then longitude): the [i]-th
    coordinate is made of elements [2i+1] and [2i], and an odd element left
    at the end is dropped. *)
Theorem extract_coords_pairs {F} (catalog : Catalog F) (p : CalculationProxy F)
    (config_param text : string) (transform : string -> Res (JobVal F))
    (xs : list F) :
  PARAMS catalog !! config_param ≫= to_job = Some transform ->
  params p !! config_param = Some text ->
  transform text = Ok (VFloats xs) ->
  exists coords,
    _extract_coords catalog p config_param = Ok coords
    /\ forall i, coords !! i
                 = match xs !! (2 * i + 1), xs !! (2 * i) with
                   | Some lon, Some lat => Some (VFloat lon, VFloat lat)
                   | _, _ => None
                   end.
Proof.
  intros Hcatalog Hparam Htransform.
  unfold _extract_coords, proxy_getitem.
  rewrite Hcatalog, Hparam, Htransform.
  eexists; split; [reflexivity|]. intros i.
  rewrite (lookup_zip_with pair), !list_lookup_fmap.
  rewrite slice_odd_lookup, slice_even_lookup.
  destruct (xs !! (2 * i + 1)); [|done].
  by destruct (xs !! (2 * i)).
Qed.

Lemma extract_coords_pairs_witness :
  exists coords,
    _extract_coords Samples.catalog Samples.sites_proxy "SITES" = Ok coords
    /\ forall i,
         coords !! i
         = match ["37.5"; "-122.2"; "37.5"; "-122.1"] !! (2 * i + 1),
                 ["37.5"; "-122.2"; "37.5"; "-122.1"] !! (2 * i) with
           | Some lon, Some lat => Some (VFloat lon, VFloat lat)
           | _, _ => None
           end.
Proof.
  apply (extract_coords_pairs Samples.catalog Samples.sites_proxy "SITES"
           "37.5,-122.2 37.5,-122.1" Samples.text_to_floats);
    reflexivity.
Defined.

Section Memo.
Context {F : Type}.
Variable catalog : Catalog F.
Variable shapes : Shapes F.


End Memo.



(** The exposure policy needs both the RISK section and a non-empty
    [COMPUTE_HAZARD_AT_ASSETS_LOCATIONS]; when it applies, an explicit
    [SITES] list is not looked at; without the RISK section the flag is
    ignored and the choice is between [SITES] and the region grid. *)
Theorem site_selection_precedence {F} (catalog : Catalog F)
    (shapes : Shapes F) (p : CalculationProxy F) :
  sites p = [] ->
  (jobconf.RISK_SECTION ∈ sections p ->
   truthy (has p jobconf.COMPUTE_HAZARD_AT_ASSETS) = true ->
   sites_to_compute catalog shapes p
   = cache_sites p (read_sites_from_exposure catalog shapes p))
  /\ (jobconf.RISK_SECTION ∉ sections p ->
      sites_to_compute catalog shapes p
      = cache_sites p
          (if truthy (has p jobconf.SITES)
           then sites_of_coords <$> _extract_coords catalog p jobconf.SITES
           else _sites_for_region catalog shapes p)).
Proof.
  intros Hcache. unfold sites_to_compute. rewrite Hcache. simpl. split.
  - intros Hrisk Hflag. by rewrite bool_decide_eq_true_2, Hflag.
  - intros Hrisk. rewrite bool_decide_eq_false_2 by done. simpl.
    by destruct (truthy (has p jobconf.SITES)).
Qed.

Lemma site_selection_precedence_witness :
  sites_to_compute Samples.catalog Samples.shapes Samples.sites_proxy
  = cache_sites Samples.sites_proxy
      (sites_of_coords
         <$> _extract_coords Samples.catalog Samples.sites_proxy
                             jobconf.SITES).
Proof.
  apply (site_selection_precedence Samples.catalog Samples.shapes
           Samples.sites_proxy eq_refl).
  apply (bool_decide_eq_false_1
           (jobconf.RISK_SECTION ∈ sections Samples.sites_proxy)).
  reflexivity.
Defined.

Section Exposure.
Context {F : Type}.
Variable shapes : Shapes F.
Implicit Types (acc found : list (Site F)) (site : Site F).

Lemma add_site_elem acc site s :
  s ∈ add_site shapes acc site -> s ∈ acc \/ s = site.
Proof.
  unfold add_site. destruct (existsb _ acc); [by left|].
  rewrite elem_of_app, list_elem_of_singleton. tauto.
Qed.

Lemma add_site_keeps acc site s : s ∈ acc -> s ∈ add_site shapes acc site.
Proof.
  unfold add_site. destruct (existsb _ acc); [done|].
  rewrite elem_of_app. tauto.
Qed.

Lemma add_site_covers acc site :
  exists a, a ∈ add_site shapes acc site
            /\ (a = site \/ Site_eq shapes a site = true).
Proof.
  unfold add_site. destruct (existsb _ acc) eqn:Hfound.
  - apply existsb_exists in Hfound as (a & Hin & Heq).
    exists a. split; [by apply list_elem_of_In|by right].
  - exists site. split; [|by left].
    rewrite elem_of_app, list_elem_of_singleton. tauto.
Qed.

Lemma add_site_no_repeat acc site :
  no_repeated_site shapes acc -> no_repeated_site shapes (add_site shapes acc site).
Proof.
  intros Hacc. unfold add_site. destruct (existsb _ acc) eqn:Hfound; [done|].
  intros i j a b Hlt Ha Hb.
  destruct (decide (j < length acc)) as [Hj|Hj].
  - rewrite lookup_app_l in Ha, Hb by lia. eauto.
  - assert (j = length acc) as ->.
    { apply lookup_lt_Some in Hb. rewrite length_app in Hb. simpl in Hb. lia. }
    rewrite lookup_app_l in Ha by lia.
    rewrite lookup_app_r, Nat.sub_diag in Hb by lia. injection Hb as <-.
    destruct (Site_eq shapes a site) eqn:Heq; [|done].
    assert (existsb (fun s => Site_eq shapes s site) acc = true) as Hex;
      [|congruence].
    apply existsb_exists. exists a. split; [|done].
    apply list_elem_of_In. by eapply list_elem_of_lookup_2.
Qed.

Lemma dedup_loop found : forall acc,
  no_repeated_site shapes acc ->
  let sites := foldl (add_site shapes) acc found in
  no_repeated_site shapes sites
  /\ (forall s, s ∈ sites -> s ∈ acc \/ s ∈ found)
  /\ (forall s, s ∈ acc -> s ∈ sites)
  /\ (forall s, s ∈ found ->
        exists a, a ∈ sites /\ (a = s \/ Site_eq shapes a s = true)).
Proof.
  induction found as [|site found IH]; intros acc Hacc; simpl.
  - split; [done|]. split; [by left|]. split; [done|].
    by intros s Hs%elem_of_nil.
  - pose proof (IH (add_site shapes acc site)
                   (add_site_no_repeat _ _ Hacc)) as Hloop.
    simpl in Hloop. destruct Hloop as (Hrep & Hfrom & Hkeep & Hcover).
    split; [done|]. split; [|split].
    + intros s [[Hs| ->]%add_site_elem|Hs]%Hfrom.
      * by left.
      * right. by left.
      * right. by right.
    + intros s Hs. by apply Hkeep, add_site_keeps.
    + intros s [->|Hs]%elem_of_cons; [|by apply Hcover].
      destruct (add_site_covers acc site) as (a & Ha & Heq).
      exists a. split; [by apply Hkeep|done].
Qed.
End Exposure.

(** The sites read from the exposure file: each one was yielded by the
    reader for the file under the base path and the job's region; none is
    equal to a site before it in the list; and each site the reader yielded
    is in the list or equal to one that is. *)
Theorem exposure_sites_without_duplicates {F} (catalog : Catalog F)
    (shapes : Shapes F) (p : CalculationProxy F) (sites : list (Site F)) :
  read_sites_from_exposure catalog shapes p = Ok sites ->
  exists file path constraint found,
    params p !! jobconf.EXPOSURE = Some file
    /\ join_base (base_path p) file = Ok path
    /\ region catalog shapes p = Ok constraint
    /\ exposure_filter shapes path constraint = Ok found
    /\ no_repeated_site shapes sites
    /\ (forall s, s ∈ sites -> s ∈ found)
    /\ (forall s, s ∈ found ->
          exists a, a ∈ sites /\ (a = s \/ Site_eq shapes a s = true)).
Proof.
  unfold read_sites_from_exposure, getitem.
  destruct (params p !! jobconf.EXPOSURE) as [file|]; simpl; [|done].
  destruct (join_base (base_path p) file) as [path| |] eqn:Hpath;
    simpl; try done.
  destruct (region catalog shapes p) as [constraint| |]; simpl; try done.
  destruct (exposure_filter shapes path constraint) as [found| |] eqn:Hfound;
    simpl; try done.
  intros [= <-].
  assert (no_repeated_site shapes []) as Hnil.
  { intros i j a b _ Ha. by rewrite lookup_nil in Ha. }
  pose proof (dedup_loop shapes found [] Hnil) as Hloop. simpl in Hloop.
  destruct Hloop as (Hrep & Hfrom & _ & Hcover).
  exists file, path, constraint, found. repeat split; try done.
  intros s [Hs%elem_of_nil|Hs]%Hfrom; done.
Qed.


Lemma exposure_sites_without_duplicates_witness :
  exists found,
    exposure_filter Cases2.exposure_shapes "/jobs/exposure.xml" None = Ok found
    /\ length found = 3
    /\ no_repeated_site Cases2.exposure_shapes
         [mkSite (VFloat "9.15") (VFloat "45.16");
          mkSite (VFloat "9.15") (VFloat "45.12")].
Proof.
  destruct (exposure_sites_without_duplicates Samples.catalog
              Cases2.exposure_shapes Cases2.exposure_proxy
              [mkSite (VFloat "9.15") (VFloat "45.16");
               mkSite (VFloat "9.15") (VFloat "45.12")] eq_refl)
    as (file & path & constraint & found & Hfile & Hpath & Hregion & Hfound
        & Hrep & _).
  exists found.
  injection Hfile as <-. injection Hpath as <-. injection Hregion as <-.
  split; [exact Hfound|]. split; [|exact Hrep].
  injection Hfound as <-. reflexivity.
Defined.

(** ** More on the calculation table and the processes *)



Section Start.
Context {F : Type}.
Variable Ext : Type.
Variable delete_job_counters : Z -> Step Ext.
Hypothesis counters_cleared :
  forall i w0, exists ext', delete_job_counters i w0 = (Ok tt, (w0.1, ext')).

(** What [run_calculation] has done when it forks. *)
Lemma run_calculation_start_ok (job_profile : OqJobProfile)
    (params : gmap string string) (sections : list string)
    (output_type : string) (w : World Ext) :
  output_type ∈ ["db"; "xml"] ->
  let i := next_id w.1 in
  let c := mkCalculation (Some i) (profile_owner job_profile)
                         (Some job_profile) "running" None None in
  exists ext' serialize_results_to,
    run_calculation_start (F := F) Ext delete_job_counters job_profile params
                          sections output_type w
    = (Ok (c, CalculationProxy_init params i sections None
                serialize_results_to (Some job_profile) (Some c)),
       (mkDb (<[i := c]> (rows w.1)) (i + 1) (journal w.1 ++ [c]), ext')).
Proof.
  intros Htype i c. unfold run_calculation_start.
  rewrite (bool_decide_eq_true_2 _ Htype). unfold key_for, save. simpl.
  match goal with
  | |- context [delete_job_counters ?j ?w0] =>
      destruct (counters_cleared j w0) as [ext' ->]
  end.
  simpl. eauto.
Qed.
End Start.

(** Two runs started from one job profile get two records: different
    keys, both in the table with status [running] and that profile, each
    proxy carrying the key of its own record.  (The counters are cleared by
    a collaborator that returns and leaves the table alone.) *)
Theorem two_runs_two_records {F} (Ext : Type)
    (delete_job_counters : Z -> Step Ext) (job_profile : OqJobProfile)
    (params : gmap string string) (sections : list string)
    (output_type : string) (w : World Ext) :
  (forall i w0, exists ext', delete_job_counters i w0 = (Ok tt, (w0.1, ext'))) ->
  output_type ∈ ["db"; "xml"] ->
  exists c1 c2 (proxy1 proxy2 : CalculationProxy F) w1 w2 i1 i2,
    run_calculation_start Ext delete_job_counters job_profile params sections
                          output_type w = (Ok (c1, proxy1), w1)
    /\ run_calculation_start Ext delete_job_counters job_profile params
                             sections output_type w1 = (Ok (c2, proxy2), w2)
    /\ calc_id c1 = Some i1 /\ calc_id c2 = Some i2 /\ i1 ≠ i2
    /\ _calculation_id proxy1 = i1 /\ _calculation_id proxy2 = i2
    /\ rows w2.1 !! i1 = Some c1 /\ rows w2.1 !! i2 = Some c2
    /\ status c1 = "running" /\ status c2 = "running"
    /\ oq_job_profile c1 = Some job_profile
    /\ oq_job_profile c2 = Some job_profile.
Proof.
  intros Hcounters Htype.
  destruct (run_calculation_start_ok (F := F) Ext delete_job_counters
              Hcounters job_profile params sections output_type w Htype)
    as (ext1 & ser1 & Hfirst).
  rewrite Hfirst.
  destruct (run_calculation_start_ok (F := F) Ext delete_job_counters
              Hcounters job_profile params sections output_type
              (mkDb (<[next_id w.1 :=
                         mkCalculation (Some (next_id w.1))
                           (profile_owner job_profile) (Some job_profile)
                           "running" None None]> (rows w.1))
                    (next_id w.1 + 1)
                    (journal w.1 ++
                       [mkCalculation (Some (next_id w.1))
                          (profile_owner job_profile) (Some job_profile)
                          "running" None None]), ext1) Htype)
    as (ext2 & ser2 & Hsecond).
  simpl in Hsecond.
  eexists _, _, _, _, _, _, _, _. split; [reflexivity|].
  split; [exact Hsecond|]. simpl.
  repeat split.
  - lia.
  - rewrite lookup_insert_ne by lia. apply lookup_insert_eq.
  - apply lookup_insert_eq.
Qed.

Lemma two_runs_two_records_witness :
  exists c1 c2 (proxy1 proxy2 : CalculationProxy string) w1 w2 i1 i2,
    run_calculation_start unit Cases2.no_counters Cases2.profile
                          Samples.classical_params Samples.hazard_and_risk
                          "db" (Samples.running_db, tt) = (Ok (c1, proxy1), w1)
    /\ run_calculation_start unit Cases2.no_counters Cases2.profile
                             Samples.classical_params Samples.hazard_and_risk
                             "db" w1 = (Ok (c2, proxy2), w2)
    /\ calc_id c1 = Some i1 /\ calc_id c2 = Some i2 /\ i1 ≠ i2
    /\ _calculation_id proxy1 = i1 /\ _calculation_id proxy2 = i2
    /\ rows w2.1 !! i1 = Some c1 /\ rows w2.1 !! i2 = Some c2
    /\ status c1 = "running" /\ status c2 = "running"
    /\ oq_job_profile c1 = Some Cases2.profile
    /\ oq_job_profile c2 = Some Cases2.profile.
Proof.
  apply (two_runs_two_records unit Cases2.no_counters Cases2.profile
           Samples.classical_params Samples.hazard_and_risk "db"
           (Samples.running_db, tt)).
  - intros i [db []]. exists tt. reflexivity.
  - left.
Defined.

(** [import_job_profile] writes nothing before the configuration has been
    resolved, prepared and found valid: either the world is as it was, or
    what changed it is [_prepare_job], run on the prepared parameters that
    passed validation. *)
Theorem import_persists_only_valid {F} (Ext : Type) (catalog : Catalog F)
    (is_valid : list string -> gmap string string -> bool * list string)
    (_prepare_job : gmap string string -> list string -> World Ext ->
                    Res OqJobProfile * World Ext)
    (fuel : nat) (os : OS) (path_to_cfg : string) (w w' : World Ext)
    (outcome : Res (OqJobProfile * gmap string string * list string)) :
  import_job_profile Ext catalog is_valid _prepare_job fuel os path_to_cfg w
  = (outcome, w') ->
  w' = w
  \/ exists raw raw_sections prepared sections' errors result,
       _parse_config_file fuel os path_to_cfg = Ok (raw, raw_sections)
       /\ (_prepare_config_parameters catalog raw raw_sections).1
          = Ok (prepared, sections')
       /\ is_valid sections' prepared = (true, errors)
       /\ _prepare_job prepared sections' w = (result, w').
Proof.
  unfold import_job_profile.
  destruct (_parse_config_file fuel os path_to_cfg)
    as [[raw raw_sections]| |] eqn:Hparse; [|intros [= _ <-]; by left..].
  destruct (_prepare_config_parameters catalog raw raw_sections).1
    as [[prepared sections']| |] eqn:Hprepared; [|intros [= _ <-]; by left..].
  destruct (is_valid sections' prepared) as [[] errors] eqn:Hvalid; simpl;
    [|intros [= _ <-]; by left].
  destruct (_prepare_job prepared sections' w) as [result w1] eqn:Hjob.
  intros Hresult. right.
  exists raw, raw_sections, prepared, sections', errors, result.
  split; [done|]. split; [done|]. split; [done|].
  destruct result; by injection Hresult as _ <-.
Qed.

Lemma import_persists_only_valid_witness :
  (import_job_profile nat Samples.catalog Cases2.refuse_all
                      Cases2.marking_prepare_job 2 Samples.include_only
                      "config.gem" (Samples.running_db, 0)).2
  = (Samples.running_db, 0).
Proof.
  destruct (import_job_profile nat Samples.catalog Cases2.refuse_all
              Cases2.marking_prepare_job 2 Samples.include_only
              "config.gem" (Samples.running_db, 0))
    as [outcome w'] eqn:Himport.
  destruct (import_persists_only_valid nat Samples.catalog Cases2.refuse_all
              Cases2.marking_prepare_job 2 Samples.include_only
              "config.gem" (Samples.running_db, 0) w' outcome Himport)
    as [->|(raw & raw_sections & prepared & sections' & errors & result
            & _ & _ & Hvalid & _)].
  - reflexivity.
  - discriminate Hvalid.
Defined.


(** ** Source models of a logic tree *)

Example strip_blanks : Str.strip "  source_model1.xml
    " = "source_model1.xml".
Proof. reflexivity. Qed.

Example endswith_xml :
  Str.endswith ".xml" "a.xml" = true /\ Str.endswith ".xml" "a.xml.inp" = false
  /\ Str.endswith ".xml" "xml" = false.
Proof. repeat split. Qed.

Lemma endswith_append suffix a b :
  Str.endswith suffix b = true -> Str.endswith suffix (a +:+ b) = true.
Proof.
  intros Hb. induction a as [|c a IH]; simpl; [done|].
  rewrite IH. apply orb_true_r.
Qed.

Lemma endswith_join suffix a b :
  Str.endswith suffix b = true ->
  Str.endswith suffix (posixpath.join a b) = true.
Proof.
  intros Hb. unfold posixpath.join.
  destruct (posixpath.isabs b); [done|].
  destruct (_ || _); repeat apply endswith_append; done.
Qed.

Lemma rstrip_slash_empty s :
  posixpath.rstrip_slash s = "" -> posixpath.all_slashes s = true.
Proof.
  induction s as [|c s IH]; simpl; [done|].
  destruct (posixpath.is_slash c); simpl; [|done].
  destruct (String.eqb (posixpath.rstrip_slash s) "") eqn:Hrest; [|done].
  intros _. by apply IH, String.eqb_eq.
Qed.

Lemma dirname_isabs p :
  posixpath.isabs p = true -> posixpath.isabs (posixpath.dirname p) = true.
Proof.
  destruct p as [|c p]; [done|]. simpl. intros Hc.
  unfold posixpath.dirname.
  assert (Hhead : posixpath.head_to_last_slash (String c p)
                  = String c (posixpath.head_to_last_slash p)).
  { simpl. by rewrite Hc. }
  rewrite Hhead.
  destruct (posixpath.all_slashes (String c (posixpath.head_to_last_slash p)))
    eqn:Hall; simpl; [done|].
  rewrite Hc. simpl.
  destruct (String.eqb (posixpath.rstrip_slash
                          (posixpath.head_to_last_slash p)) "") eqn:Hrest;
    [|done].
  apply String.eqb_eq, rstrip_slash_empty in Hrest.
  simpl in Hall. by rewrite Hc, Hrest in Hall.
Qed.

(** A logic tree that is not an [.xml] file has no source models, and the
    file is not even opened. *)
Lemma not_xml_no_source_models iterparse uncert_mdl_tag cwd logic_tree :
  Str.endswith ".xml" logic_tree = false ->
  _get_source_models iterparse uncert_mdl_tag cwd logic_tree = Ok [].
Proof. intros Hxml. unfold _get_source_models. by rewrite Hxml. Qed.

(** Every source model returned is an [.xml] path and, the working
    directory being absolute, an absolute one; and there are no more of
    them than the file has elements. *)
Theorem source_models_are_absolute_xml iterparse uncert_mdl_tag cwd logic_tree
    model_files :
  posixpath.isabs cwd = true ->
  _get_source_models iterparse uncert_mdl_tag cwd logic_tree = Ok model_files ->
  Forall (fun path => Str.endswith ".xml" path = true
                      /\ posixpath.isabs path = true) model_files
  /\ length model_files <= length (iterparse logic_tree).1.
Proof.
  intros Hcwd. unfold _get_source_models.
  destruct (Str.endswith ".xml" logic_tree); simpl.
  2:{ intros [= <-]. split; [constructor|]. simpl; lia. }
  destruct (iterparse logic_tree) as [elems failure]; simpl.
  set (base := posixpath.dirname (posixpath.abspath cwd logic_tree)).
  assert (Hbase : posixpath.isabs base = true).
  { by apply dirname_isabs, abspath_isabs. }
  set (good := fun path => Str.endswith ".xml" path = true
                           /\ posixpath.isabs path = true).
  assert (Hloop : forall acc out,
            Forall good acc ->
            for_each (source_model_step uncert_mdl_tag base) acc elems = Ok out ->
            Forall good out /\ length out <= length acc + length elems).
  { induction elems as [|elem elems IH]; intros acc out Hacc; simpl.
    - intros [= <-]. split; [done|lia].
    - unfold source_model_step at 1.
      destruct (String.eqb (tag elem) uncert_mdl_tag).
      + destruct (text elem) as [t|]; simpl; [|discriminate].
        destruct (Str.endswith ".xml" (Str.strip t)) eqn:Hxml; simpl.
        * intros Hrest. apply IH in Hrest as [Hout Hlen].
          -- split; [done|]. rewrite length_app in Hlen. simpl in Hlen. lia.
          -- apply Forall_app. split; [done|]. constructor; [|constructor].
             split; [by apply endswith_join|by apply join_isabs].
        * intros Hrest. apply IH in Hrest as [Hout Hlen]; [|done].
          split; [done|lia].
      + simpl. intros Hrest. apply IH in Hrest as [Hout Hlen]; [|done].
        split; [done|lia]. }
  destruct (for_each (source_model_step uncert_mdl_tag base) [] elems)
    as [out| |] eqn:Hrun; simpl; try discriminate.
  destruct failure; [discriminate|]. intros [= <-].
  apply Hloop in Hrun as [Hout Hlen]; [|constructor].
  split; [done|]. simpl in Hlen. lia.
Qed.

Lemma source_models_are_absolute_xml_witness :
  _get_source_models Cases3.parse_logic_tree "{nrml}uncertaintyModel"
                     "/jobs" "trees/logic_tree.xml"
  = Ok ["/jobs/trees/source_model1.xml";
        "/jobs/trees/models/source_model2.xml"]
  /\ Forall (fun path => Str.endswith ".xml" path = true
                         /\ posixpath.isabs path = true)
            ["/jobs/trees/source_model1.xml";
             "/jobs/trees/models/source_model2.xml"].
Proof.
  split; [reflexivity|].
  apply (source_models_are_absolute_xml Cases3.parse_logic_tree
           "{nrml}uncertaintyModel" "/jobs" "trees/logic_tree.xml");
    reflexivity.
Defined.

(** ** Staging a job in the KVS *)


(** ** Staging files in the KVS *)

Section StringFacts.
Lemma length_append a b :
  String.length (a +:+ b) = String.length a + String.length b.
Proof. induction a as [|c a IH]; simpl; [done|]. by rewrite IH. Qed.

Lemma substring_append_right a b n :
  String.substring (String.length a) n (a +:+ b) = String.substring 0 n b.
Proof. induction a as [|c a IH]; simpl; done. Qed.

Lemma substring_all b : String.substring 0 (String.length b) b = b.
Proof. induction b as [|c b IH]; simpl; [done|]. by rewrite IH. Qed.

Lemma last_chars_append a b :
  Str.last_chars (String.length b) (a +:+ b) = b.
Proof.
  unfold Str.last_chars. rewrite length_append.
  replace (String.length a + String.length b - String.length b)
    with (String.length a) by lia.
  by rewrite substring_append_right, substring_all.
Qed.

Lemma append_cancel_right a b s : a +:+ s = b +:+ s -> a = b.
Proof.
  intros Heq.
  assert (Hlen : String.length a = String.length b).
  { apply (f_equal String.length) in Heq. rewrite !length_append in Heq. lia. }
  revert b Heq Hlen. induction a as [|c a IH]; intros [|d b]; simpl;
    try done.
  intros [= -> Heq] [= Hlen]. f_equal. by apply IH.
Qed.
End StringFacts.

Section Slurp.
Context {F : Type}.
Variable client : KvsClient.
Variable read_file : string -> Res string.
Implicit Types (p q : CalculationProxy F) (kvs : Kvs client).

Lemma path_shadow_not_file k : is_file_key (k +:+ "_PATH") = false.
Proof.
  unfold is_file_key. pose proof (last_chars_append k "_PATH") as Hlast.
  simpl in Hlast. by rewrite Hlast.
Qed.

Lemma base_path_key_not_written k :
  is_file_key k = true -> "BASE_PATH" ≠ k /\ "BASE_PATH" ≠ k +:+ "_PATH".
Proof.
  intros Hk. split.
  - intros <-. discriminate Hk.
  - intros Heq. apply (append_cancel_right "BASE" k "_PATH") in Heq.
    subst k. discriminate Hk.
Qed.

(** What one round of the loop does when it does not raise. *)
Lemma slurp_item_ok (st st' : CalculationProxy F * Kvs client) k v :
  slurp_item client read_file st (k, v) = (Ok tt, st') ->
  (is_file_key k = false /\ st' = st)
  \/ (is_file_key k = true
      /\ exists path blob,
           join_base (base_path st.1) v = Ok path
           /\ read_file path = Ok blob
           /\ st' = (set_params
                       (<[k +:+ "_PATH" := path]>
                          (<[k := generate_blob_key client (job_id st.1) blob]>
                             (params st.1))) st.1,
                     kvs_set client
                       (generate_blob_key client (job_id st.1) blob) blob
                       st.2)).
Proof.
  unfold slurp_item. destruct (is_file_key k); [|intros [= <-]; by left].
  destruct (join_base (base_path st.1) v) as [path| |]; try discriminate.
  destruct (read_file path) as [blob| |] eqn:Hread; try discriminate.
  intros [= <-]. right. split; [done|]. by exists path, blob.
Qed.

Lemma slurp_item_frame (st st' : CalculationProxy F * Kvs client) k v j :
  slurp_item client read_file st (k, v) = (Ok tt, st') ->
  (is_file_key k = true -> j ≠ k /\ j ≠ k +:+ "_PATH") ->
  params st'.1 !! j = params st.1 !! j.
Proof.
  intros [[_ ->]|(Hk & path & blob & _ & _ & ->)]%slurp_item_ok Hj; [done|].
  destruct (Hj Hk) as [Hne1 Hne2]. simpl.
  by rewrite !lookup_insert_ne.
Qed.

Lemma slurp_item_fixed (st st' : CalculationProxy F * Kvs client) k v :
  slurp_item client read_file st (k, v) = (Ok tt, st') ->
  base_path st'.1 = base_path st.1 /\ job_id st'.1 = job_id st.1
  /\ sections st'.1 = sections st.1 /\ sites st'.1 = sites st.1.
Proof.
  intros Hitem. assert (Hframe := slurp_item_frame _ _ _ _ "BASE_PATH" Hitem).
  apply slurp_item_ok in Hitem as [[_ ->]|(Hk & path & blob & _ & _ & ->)];
    [done|].
  split; [|done]. unfold base_path in *. simpl in *.
  destruct (_base_path st.1); [done|].
  apply Hframe. intros _. by apply base_path_key_not_written.
Qed.

Lemma slurp_loop_cons item rest (st : CalculationProxy F * Kvs client) :
  slurp_loop client read_file (item :: rest) st
  = match slurp_item client read_file st item with
    | (Ok _, st') => slurp_loop client read_file rest st'
    | other => other
    end.
Proof. reflexivity. Qed.

Lemma slurp_loop_frame items : forall (st st' : CalculationProxy F * Kvs client) j,
  slurp_loop client read_file items st = (Ok tt, st') ->
  (forall k v, (k, v) ∈ items -> is_file_key k = true ->
               j ≠ k /\ j ≠ k +:+ "_PATH") ->
  params st'.1 !! j = params st.1 !! j.
Proof.
  induction items as [|[k v] items IH]; intros st st' j.
  - by intros [= <-].
  - rewrite slurp_loop_cons. destruct (slurp_item client read_file st (k, v)) as [[[]| |] st1] eqn:Hitem;
      try discriminate.
    intros Hloop Hj. rewrite (IH _ _ _ Hloop).
    + eapply slurp_item_frame; [done|]. apply (Hj k v). by left.
    + intros k' v' Hin. apply (Hj k' v'). by right.
Qed.

Lemma slurp_loop_fixed items : forall (st st' : CalculationProxy F * Kvs client),
  slurp_loop client read_file items st = (Ok tt, st') ->
  base_path st'.1 = base_path st.1 /\ job_id st'.1 = job_id st.1
  /\ sections st'.1 = sections st.1 /\ sites st'.1 = sites st.1.
Proof.
  induction items as [|[k v] items IH]; intros st st'.
  - by intros [= <-].
  - rewrite slurp_loop_cons. destruct (slurp_item client read_file st (k, v)) as [[[]| |] st1] eqn:Hitem;
      try discriminate.
    intros (-> & -> & -> & ->)%IH. by eapply slurp_item_fixed.
Qed.

(** Every [_FILE] item of the list ends up rewritten. *)
Lemma slurp_loop_written items :
  forall (st st' : CalculationProxy F * Kvs client) base k v,
  NoDup items.*1 ->
  slurp_loop client read_file items st = (Ok tt, st') ->
  base_path st.1 = Some base ->
  (k, v) ∈ items ->
  is_file_key k = true ->
  exists blob,
    read_file (posixpath.join base v) = Ok blob
    /\ params st'.1 !! k = Some (generate_blob_key client (job_id st.1) blob)
    /\ params st'.1 !! (k +:+ "_PATH") = Some (posixpath.join base v).
Proof.
  induction items as [|[k0 v0] items IH]; intros st st' base k v Hnodup;
    [by intros _ _ []%elem_of_nil|].
  apply NoDup_cons in Hnodup as [Hfresh Hnodup]. rewrite slurp_loop_cons.
  destruct (slurp_item client read_file st (k0, v0)) as [[[]| |] st1] eqn:Hitem;
    try discriminate.
  intros Hloop Hbase Hin Hk.
  pose proof (slurp_item_fixed _ _ _ _ Hitem) as (Hbase1 & Hjob1 & _).
  apply elem_of_cons in Hin as [[= <- <-]|Hin].
  - (* the item at hand: written now, left alone afterwards *)
    apply slurp_item_ok in Hitem as [[Hno _]|(_ & path & blob & Hpath & Hread
                                              & ->)]; [congruence|].
    rewrite Hbase in Hpath. injection Hpath as <-.
    exists blob. split; [done|].
    assert (Hlater : forall k' v', (k', v') ∈ items -> k' ≠ k).
    { intros k' v' Hin' ->. apply Hfresh, list_elem_of_fmap.
      by exists (k, v'). }
    split.
    + rewrite (slurp_loop_frame _ _ _ k Hloop).
      * simpl. rewrite lookup_insert_ne, lookup_insert_eq; [done|].
        intros Heq. rewrite <- Heq, path_shadow_not_file in Hk. done.
      * intros k' v' Hin' Hk'. split; [by intros ->; eapply Hlater|].
        intros ->. by rewrite path_shadow_not_file in Hk.
    + rewrite (slurp_loop_frame _ _ _ (k +:+ "_PATH") Hloop).
      * simpl. by rewrite lookup_insert_eq.
      * intros k' v' Hin' Hk'. split.
        -- intros <-. by rewrite path_shadow_not_file in Hk'.
        -- intros Heq%append_cancel_right. by eapply Hlater.
  - (* a later item *)
    rewrite <- Hjob1. eapply IH; eauto. congruence.
Qed.
End Slurp.

Section SlurpStore.
Context {F : Type}.
Variable client : KvsClient.
Variable read_file : string -> Res string.
Hypothesis get_set_eq : forall key value s,
  kvs_get client key (kvs_set client key value s) = Some value.
Hypothesis get_set_ne : forall key key' value s,
  key ≠ key' ->
  kvs_get client key (kvs_set client key' value s) = kvs_get client key s.

(** A blob key that holds content of its own keeps doing so: the loop only
    overwrites a blob key with content that has this very key. *)
Lemma slurp_item_keeps_blob (st st' : CalculationProxy F * Kvs client) item
    file_key :
  slurp_item client read_file st item = (Ok tt, st') ->
  (exists blob, generate_blob_key client (job_id st.1) blob = file_key
                /\ kvs_get client file_key st.2 = Some blob) ->
  exists blob, generate_blob_key client (job_id st.1) blob = file_key
               /\ kvs_get client file_key st'.2 = Some blob.
Proof.
  destruct item as [k v].
  intros [[_ ->]|(_ & path & blob' & _ & _ & ->)]%slurp_item_ok Hheld;
    [done|].
  simpl.
  destruct (decide (file_key
                    = generate_blob_key client (job_id st.1) blob'))
    as [->|Hne].
  - exists blob'. by rewrite get_set_eq.
  - destruct Hheld as (blob & Hkey & Hget). exists blob.
    by rewrite get_set_ne.
Qed.

Lemma slurp_loop_keeps_blob items :
  forall (st st' : CalculationProxy F * Kvs client) file_key,
  slurp_loop client read_file items st = (Ok tt, st') ->
  (exists blob, generate_blob_key client (job_id st.1) blob = file_key
                /\ kvs_get client file_key st.2 = Some blob) ->
  exists blob, generate_blob_key client (job_id st.1) blob = file_key
               /\ kvs_get client file_key st'.2 = Some blob.
Proof.
  induction items as [|item items IH]; intros st st' file_key.
  - by intros [= <-].
  - rewrite slurp_loop_cons.
    destruct (slurp_item client read_file st item) as [[[]| |] st1] eqn:Hitem;
      try discriminate.
    intros Hloop Hheld.
    assert (Hjob : job_id st1.1 = job_id st.1).
    { destruct item. by eapply slurp_item_fixed. }
    rewrite <- Hjob. eapply IH; [done|]. rewrite Hjob.
    by eapply slurp_item_keeps_blob.
Qed.

Lemma slurp_loop_stored items :
  forall (st st' : CalculationProxy F * Kvs client) k v,
  NoDup items.*1 ->
  slurp_loop client read_file items st = (Ok tt, st') ->
  is_Some (base_path st.1) ->
  (k, v) ∈ items ->
  is_file_key k = true ->
  exists file_key blob,
    params st'.1 !! k = Some file_key
    /\ generate_blob_key client (job_id st.1) blob = file_key
    /\ kvs_get client file_key st'.2 = Some blob.
Proof.
  induction items as [|[k0 v0] items IH]; intros st st' k v Hnodup;
    [by intros _ _ []%elem_of_nil|].
  intros Hloop [base Hbase] Hin Hk.
  destruct (slurp_loop_written client read_file _ _ _ _ _ _
              Hnodup Hloop Hbase Hin Hk) as (blob0 & Hread0 & Hkey & _).
  rewrite slurp_loop_cons in Hloop.
  apply NoDup_cons in Hnodup as [Hfresh Hnodup].
  destruct (slurp_item client read_file st (k0, v0)) as [[[]| |] st1] eqn:Hitem;
    try discriminate.
  pose proof (slurp_item_fixed _ _ _ _ _ _ Hitem) as (Hbase1 & Hjob1 & _).
  apply elem_of_cons in Hin as [[= <- <-]|Hin].
  - exists (generate_blob_key client (job_id st.1) blob0).
    cut (exists blob,
           generate_blob_key client (job_id st.1) blob
           = generate_blob_key client (job_id st.1) blob0
           /\ kvs_get client (generate_blob_key client (job_id st.1) blob0)
                st'.2 = Some blob).
    { intros (blob & ? & ?). by exists blob. }
    rewrite <- Hjob1. eapply slurp_loop_keeps_blob; [done|].
    rewrite Hjob1.
    apply slurp_item_ok in Hitem as [[Hno _]|(_ & path & blob & Hpath & Hread
                                              & ->)]; [congruence|].
    rewrite Hbase in Hpath. injection Hpath as <-.
    assert (blob = blob0) as -> by congruence.
    exists blob0. simpl. by rewrite get_set_eq.
  - rewrite <- Hjob1. eapply IH; eauto. rewrite Hbase1. by exists base.
Qed.
End SlurpStore.

Section SlurpOutcome.
Context {F : Type}.
Variable client : KvsClient.
Variable read_file : string -> Res string.

Lemma slurp_loop_outcome items :
  forall (st : CalculationProxy F * Kvs client) base,
  base_path st.1 = Some base ->
  (slurp_loop client read_file items st).1 = Ok tt
  \/ exists k v,
       (k, v) ∈ items /\ is_file_key k = true
       /\ (forall blob, read_file (posixpath.join base v) ≠ Ok blob)
       /\ (slurp_loop client read_file items st).1
          = (fun _ => tt) <$> read_file (posixpath.join base v).
Proof.
  induction items as [|[k v] items IH]; intros st base Hbase; [by left|].
  rewrite slurp_loop_cons.
  destruct (slurp_item client read_file st (k, v)) as [[[]|ex|] st1] eqn:Hitem.
  - destruct (slurp_item_fixed client read_file _ _ _ _ Hitem) as [Hbase1 _].
    rewrite Hbase in Hbase1.
    destruct (IH st1 base Hbase1) as [Hok|(k' & v' & Hin & ?)]; [by left|].
    right. exists k', v'. split; [by right|done].
  - right. exists k, v. split; [by left|]. unfold slurp_item in Hitem.
    rewrite Hbase in Hitem. simpl in Hitem.
    destruct (is_file_key k); [|discriminate]. split; [done|].
    destruct (read_file (posixpath.join base v)); try discriminate.
    by injection Hitem as <- _.
  - right. exists k, v. split; [by left|]. unfold slurp_item in Hitem.
    rewrite Hbase in Hitem. simpl in Hitem.
    destruct (is_file_key k); [|discriminate]. split; [done|].
    by destruct (read_file (posixpath.join base v)).
Qed.
End SlurpOutcome.


(** [_slurp_files] on a job with a base path: every [_FILE] parameter is
    read from under the base path and replaced by the blob key of its
    content, the path is kept under [<key>_PATH], and no other parameter
    changes; the base path itself is not touched. *)
Theorem slurp_files_rewrites_file_parameters {F} (client : KvsClient)
    (read_file : string -> Res string) (p p' : CalculationProxy F)
    (kvs kvs' : Kvs client) (base : string) :
  base_path p = Some base ->
  _slurp_files client read_file p kvs = (Ok tt, (p', kvs')) ->
  (forall key val,
     params p !! key = Some val -> is_file_key key = true ->
     exists blob,
       read_file (posixpath.join base val) = Ok blob
       /\ params p' !! key = Some (generate_blob_key client (job_id p) blob)
       /\ params p' !! (key +:+ "_PATH") = Some (posixpath.join base val))
  /\ (forall key,
        is_file_key key = false ->
        (forall k, key = k +:+ "_PATH" -> is_file_key k = true ->
                   params p !! k = None) ->
        params p' !! key = params p !! key)
  /\ base_path p' = Some base /\ job_id p' = job_id p.
Proof.
  intros Hbase. unfold _slurp_files. rewrite Hbase. intros Hloop.
  split; [|split].
  - intros key val Hkey Hfile.
    apply (slurp_loop_written client read_file (map_to_list (params p))
             (p, kvs) (p', kvs') base key val); try done.
    + apply NoDup_fst_map_to_list.
    + by apply elem_of_map_to_list.
  - intros key Hfile Hshadow.
    apply (slurp_loop_frame client read_file _ (p, kvs) (p', kvs') key Hloop).
    intros k v Hin%elem_of_map_to_list Hk. split.
    + intros ->. congruence.
    + intros ->. rewrite (Hshadow k) in Hin; done.
  - destruct (slurp_loop_fixed client read_file _ _ _ Hloop) as (Hb & Hj & _).
    simpl in Hb, Hj. by rewrite Hb, Hj.
Qed.

Lemma slurp_files_rewrites_file_parameters_witness :
  exists p' kvs',
    _slurp_files Cases4.dict_client Cases4.one_file Cases4.staged_proxy ∅
    = (Ok tt, (p', kvs'))
    /\ params p' !! "EXPOSURE_FILE" = Some "blob!<exposure/>"
    /\ params p' !! "EXPOSURE_FILE_PATH" = Some "/jobs/small/exposure.xml"
    /\ params p' !! "CALCULATION_MODE" = Some "Event Based"
    /\ base_path p' = Some "/jobs/small".
Proof.
  assert (Hbase : base_path Cases4.staged_proxy = Some "/jobs/small")
    by (vm_compute; reflexivity).
  assert (Hexp : params Cases4.staged_proxy !! "EXPOSURE_FILE"
                 = Some "exposure.xml") by (vm_compute; reflexivity).
  assert (Hmode : params Cases4.staged_proxy !! "CALCULATION_MODE"
                  = Some "Event Based") by (vm_compute; reflexivity).
  assert (Hfile : is_file_key "EXPOSURE_FILE" = true)
    by (vm_compute; reflexivity).
  assert (Hnot : is_file_key "CALCULATION_MODE" = false)
    by (vm_compute; reflexivity).
  assert (Hok : (_slurp_files Cases4.dict_client Cases4.one_file
                   Cases4.staged_proxy ∅).1 = Ok tt)
    by (vm_compute; reflexivity).
  destruct (_slurp_files Cases4.dict_client Cases4.one_file
              Cases4.staged_proxy ∅) as [r [p' kvs']] eqn:Hrun.
  simpl in Hok. subst r. exists p', kvs'. split; [reflexivity|].
  destruct (slurp_files_rewrites_file_parameters Cases4.dict_client
              Cases4.one_file Cases4.staged_proxy p' ∅ kvs'
              "/jobs/small" Hbase Hrun) as (Hfiles & Hrest & Hbase' & _).
  destruct (Hfiles "EXPOSURE_FILE" "exposure.xml" Hexp Hfile)
    as (blob & Hread & Hkey & Hpath).
  vm_compute in Hread. injection Hread as <-.
  repeat split.
  - rewrite Hkey. vm_compute. reflexivity.
  - change ("EXPOSURE_FILE" +:+ "_PATH") with "EXPOSURE_FILE_PATH" in Hpath.
    rewrite Hpath. vm_compute. reflexivity.
  - rewrite (Hrest "CALCULATION_MODE" Hnot); [exact Hmode|].
    intros k Hk. exfalso.
    assert (Hlast := last_chars_append k "_PATH"). rewrite <- Hk in Hlast.
    vm_compute in Hlast. discriminate Hlast.
  - exact Hbase'.
Defined.

(** With a KVS that returns what was set, every blob key [_slurp_files]
    puts in the parameters leads to content in the KVS, and that content
    is content of this key. *)
Theorem slurp_files_blobs_are_stored {F} (client : KvsClient)
    (read_file : string -> Res string) (p p' : CalculationProxy F)
    (kvs kvs' : Kvs client) :
  (forall key value s,
     kvs_get client key (kvs_set client key value s) = Some value) ->
  (forall key key' value s,
     key ≠ key' ->
     kvs_get client key (kvs_set client key' value s)
     = kvs_get client key s) ->
  is_Some (base_path p) ->
  _slurp_files client read_file p kvs = (Ok tt, (p', kvs')) ->
  forall key val,
    params p !! key = Some val -> is_file_key key = true ->
    exists file_key blob,
      params p' !! key = Some file_key
      /\ generate_blob_key client (job_id p) blob = file_key
      /\ kvs_get client file_key kvs' = Some blob.
Proof.
  intros Heq Hne [base Hbase]. unfold _slurp_files. rewrite Hbase.
  intros Hloop key val Hkey Hfile.
  apply (slurp_loop_stored client read_file Heq Hne (map_to_list (params p))
           (p, kvs) (p', kvs') key val);
    [apply NoDup_fst_map_to_list | done | by exists base
    | by apply elem_of_map_to_list | done].
Qed.

Lemma dict_client_get_set_eq key value s :
  kvs_get Cases4.dict_client key (kvs_set Cases4.dict_client key value s)
  = Some value.
Proof. simpl. by rewrite lookup_insert_eq. Qed.

Lemma dict_client_get_set_ne key key' value s :
  key ≠ key' ->
  kvs_get Cases4.dict_client key (kvs_set Cases4.dict_client key' value s)
  = kvs_get Cases4.dict_client key s.
Proof. intros Hne. simpl. by rewrite lookup_insert_ne. Qed.

Lemma slurp_files_blobs_are_stored_witness :
  exists p' kvs',
    _slurp_files Cases4.dict_client Cases4.one_file Cases4.staged_proxy ∅
    = (Ok tt, (p', kvs'))
    /\ exists file_key blob,
         params p' !! "EXPOSURE_FILE" = Some file_key
         /\ generate_blob_key Cases4.dict_client
              (job_id Cases4.staged_proxy) blob = file_key
         /\ kvs_get Cases4.dict_client file_key kvs' = Some blob.
Proof.
  assert (Hbase : is_Some (base_path Cases4.staged_proxy))
    by (exists "/jobs/small"; vm_compute; reflexivity).
  assert (Hexp : params Cases4.staged_proxy !! "EXPOSURE_FILE"
                 = Some "exposure.xml") by (vm_compute; reflexivity).
  assert (Hfile : is_file_key "EXPOSURE_FILE" = true)
    by (vm_compute; reflexivity).
  assert (Hok : (_slurp_files Cases4.dict_client Cases4.one_file
                   Cases4.staged_proxy ∅).1 = Ok tt)
    by (vm_compute; reflexivity).
  destruct (_slurp_files Cases4.dict_client Cases4.one_file
              Cases4.staged_proxy ∅) as [r [p' kvs']] eqn:Hrun.
  simpl in Hok. subst r. exists p', kvs'. split; [reflexivity|].
  exact (slurp_files_blobs_are_stored Cases4.dict_client Cases4.one_file
           Cases4.staged_proxy p' ∅ kvs'
           dict_client_get_set_eq dict_client_get_set_ne
           Hbase Hrun "EXPOSURE_FILE" "exposure.xml" Hexp Hfile).
Defined.

(** How [_slurp_files] ends: without a base path it does nothing; with
    one it returns exactly when every [_FILE] parameter's file can be
    read, and otherwise ends as the reading of one of them ends. *)
Theorem slurp_files_fails_with_a_file {F} (client : KvsClient)
    (read_file : string -> Res string) (p : CalculationProxy F)
    (kvs : Kvs client) :
  (base_path p = None ->
   _slurp_files client read_file p kvs = (Ok tt, (p, kvs)))
  /\ (forall base,
        base_path p = Some base ->
        ((_slurp_files client read_file p kvs).1 = Ok tt
         <-> forall key val,
               params p !! key = Some val -> is_file_key key = true ->
               exists blob, read_file (posixpath.join base val) = Ok blob)
        /\ ((_slurp_files client read_file p kvs).1 = Ok tt
            \/ exists key val,
                 params p !! key = Some val /\ is_file_key key = true
                 /\ (_slurp_files client read_file p kvs).1
                    = (fun _ => tt) <$> read_file (posixpath.join base val))).
Proof.
  split.
  - intros Hnone. unfold _slurp_files. by rewrite Hnone.
  - intros base Hbase.
    pose proof (slurp_loop_outcome client read_file (map_to_list (params p))
                  (p, kvs) base Hbase) as Hout.
    assert (Hrun : _slurp_files client read_file p kvs
                   = slurp_loop client read_file (map_to_list (params p))
                       (p, kvs)).
    { unfold _slurp_files. by rewrite Hbase. }
    rewrite Hrun. split; [split|].
    + intros Hok key val Hkey Hfile.
      destruct (slurp_loop client read_file (map_to_list (params p)) (p, kvs))
        as [r [p' kvs']] eqn:Hloop.
      simpl in Hok. subst r.
      destruct (slurp_loop_written client read_file (map_to_list (params p))
                  (p, kvs) (p', kvs') base key val) as (blob & Hread & _);
        try done.
      * apply NoDup_fst_map_to_list.
      * by apply elem_of_map_to_list.
      * by exists blob.
    + intros Hall.
      destruct Hout as [Hok|(k & v & Hin%elem_of_map_to_list & Hk & Hbad & _)];
        [done|].
      destruct (Hall k v Hin Hk) as [blob Hread]. by destruct (Hbad blob).
    + destruct Hout as [Hok|(k & v & Hin%elem_of_map_to_list & Hk & _ & Hres)];
        [by left|].
      right. by exists k, v.
Qed.

(** [to_kvs] followed by [from_kvs], with a KVS whose JSON documents come
    back as they were set and the calculation on record: the restored job
    has the stored parameters plus [debug], the same id and the recorded
    calculation, but no sections, no sites and no base path of its own:
    its base path is the [BASE_PATH] parameter. *)
Theorem from_kvs_restores_what_to_kvs_stored {F} (client : KvsClient)
    (read_file : string -> Res string) (FLAGS_debug : string)
    (p p' : CalculationProxy F) (kvs kvs' : Kvs client) (db : Database)
    (calculation : OqCalculation) :
  (forall key data s,
     get_value_json_decoded client key
       (set_value_json_encoded client key data s) = Ok data) ->
  to_kvs client read_file FLAGS_debug p kvs = (Ok tt, (p', kvs')) ->
  rows db !! job_id p = Some calculation ->
  exists q : CalculationProxy F,
    from_kvs client (job_id p) kvs' db = Ok q
    /\ job_id q = job_id p
    /\ params q !! "debug" = Some FLAGS_debug
    /\ (forall key, key ≠ "debug" -> params q !! key = params p' !! key)
    /\ sections q = [] /\ sites q = []
    /\ base_path q = params p !! "BASE_PATH"
    /\ proxy_calculation q = Some calculation
    /\ proxy_job_profile q = oq_job_profile calculation.
Proof.
  intros Hjson Hstore Hrow. unfold to_kvs in Hstore.
  destruct (_slurp_files client read_file p kvs) as [[[]| |] [p1 kvs1]]
    eqn:Hslurp; try discriminate.
  injection Hstore as <- <-.
  assert (Hjob : job_id p1 = job_id p
                 /\ params p1 !! "BASE_PATH" = params p !! "BASE_PATH").
  { unfold _slurp_files in Hslurp.
    destruct (base_path p) as [base|] eqn:Hbase.
    - destruct (slurp_loop_fixed client read_file _ _ _ Hslurp)
        as (_ & Hj & _).
      split; [exact Hj|].
      apply (slurp_loop_frame client read_file _ _ _ "BASE_PATH" Hslurp).
      intros k v _ Hk. by apply base_path_key_not_written.
    - by injection Hslurp as <- <-. }
  destruct Hjob as [Hjob Hbase].
  eexists. split.
  - unfold from_kvs. rewrite <- Hjob at 1. rewrite Hjson. simpl.
    rewrite Hrow. simpl. reflexivity.
  - simpl. rewrite lookup_insert_eq. repeat split; try done.
    + intros key Hkey. by rewrite lookup_insert_ne.
    + unfold base_path. simpl. by rewrite lookup_insert_ne.
Qed.

Lemma dict_client_json_round_trip key data s :
  get_value_json_decoded Cases4.dict_client key
    (set_value_json_encoded Cases4.dict_client key data s) = Ok data.
Proof. simpl. by rewrite lookup_insert_eq. Qed.

Lemma from_kvs_restores_what_to_kvs_stored_witness :
  exists p' kvs' (q : CalculationProxy string),
    to_kvs Cases4.dict_client Cases4.one_file "false" Cases4.staged_proxy ∅
    = (Ok tt, (p', kvs'))
    /\ from_kvs Cases4.dict_client 7 kvs' Samples.running_db = Ok q
    /\ params q !! "debug" = Some "false"
    /\ sections q = []
    /\ base_path q = Some "/jobs/small".
Proof.
  assert (Hrow : rows Samples.running_db !! job_id Cases4.staged_proxy
                 = Some Samples.running_calculation)
    by (vm_compute; reflexivity).
  assert (Hbase : params Cases4.staged_proxy !! "BASE_PATH"
                  = Some "/jobs/small") by (vm_compute; reflexivity).
  assert (Hok : (to_kvs Cases4.dict_client Cases4.one_file "false"
                   Cases4.staged_proxy ∅).1 = Ok tt)
    by (vm_compute; reflexivity).
  destruct (to_kvs Cases4.dict_client Cases4.one_file "false"
              Cases4.staged_proxy ∅) as [r [p' kvs']] eqn:Hrun.
  simpl in Hok. subst r. exists p', kvs'.
  destruct (from_kvs_restores_what_to_kvs_stored Cases4.dict_client
              Cases4.one_file "false" Cases4.staged_proxy p' ∅ kvs'
              Samples.running_db Samples.running_calculation
              dict_client_json_round_trip Hrun Hrow)
    as (q & Hq & _ & Hdebug & _ & Hsections & _ & Hbase' & _).
  exists q. split; [reflexivity|]. split; [exact Hq|].
  split; [exact Hdebug|]. split; [exact Hsections|].
  rewrite Hbase'. exact Hbase.
Defined.

Example unreadable_file_stops_staging :
  (_slurp_files Cases4.dict_client Cases4.one_file Cases4.unreadable_proxy
                ∅).1
  = Raise (mkExc (OtherException "IOError")
             ["No such file or directory: /jobs/small/vulnerability.xml"]).
Proof. vm_compute. reflexivity. Qed.
